(** * Agent preview session controller

    A shallow embedding of the session-token cache and of the debounced
    automatic preview of the agent builder (component [CreateAgent] of
    [src/app/agents/[id]/edit/page.tsx]) and of the token handling of the
    test chat page ([AgentChatPage]).

    JavaScript numbers that hold integers (timestamps, ids, seconds) are
    [Z]; strings are [string]; a value of type [T | null] is an [option].
    An [async] function is cut at its [await]s: the code before the first
    [await] and the code after each one are separate functions, and what the
    suspended function still needs is kept in a [Task]. The browser's timer
    table and the requests in flight are finite maps. *)

From Stdlib Require Import ZArith List String Ascii Bool Lia.
From Stdlib Require Import DecimalString Sorted.
From stdpp Require Import base tactics option list fin_maps gmap strings.
Import ListNotations.

Local Open Scope Z_scope.

(** ** JavaScript primitives used by the code *)

Module Js.

(** [String(n)] and template interpolation of an integer number. *)
Definition showZ (n : Z) : string := NilZero.string_of_int (Z.to_int n).

(** A number with one decimal digit, held as its tenfold: the range input
    of the builder (min 0, max 1, step 0.1) only yields such values. *)
Definition showTenths (k : Z) : string :=
  let a := Z.abs k in
  let sign := if (k <? 0)%Z then "-" else "" in
  let frac := if (a mod 10 =? 0)%Z then "" else "." +:+ showZ (a mod 10) in
  sign +:+ showZ (a / 10) +:+ frac.

Definition showBool (b : bool) : string := if b then "true" else "false".

Fixpoint join (sep : string) (l : list string) : string :=
  match l with
  | [] => ""
  | [x] => x
  | x :: rest => x +:+ sep +:+ join sep rest
  end.

Definition hexDigit (n : nat) : ascii :=
  nth n ["0"; "1"; "2"; "3"; "4"; "5"; "6"; "7"; "8"; "9";
         "a"; "b"; "c"; "d"; "e"; "f"]%char "0"%char.

(** The escape [JSON.stringify] writes for one character. *)
Definition jsonEscape (c : ascii) : string :=
  let n := nat_of_ascii c in
  if Nat.eqb n 34 then String "\" (String c "")
  else if Nat.eqb n 92 then String "\" (String "\" "")
  else if Nat.eqb n 8 then "\b"
  else if Nat.eqb n 9 then "\t"
  else if Nat.eqb n 10 then "\n"
  else if Nat.eqb n 12 then "\f"
  else if Nat.eqb n 13 then "\r"
  else if Nat.ltb n 32 then
    "\u00" +:+ String (hexDigit (n / 16)%nat) (String (hexDigit (n mod 16)%nat) "")
  else String c "".

Fixpoint jsonEscapeAll (s : string) : string :=
  match s with
  | EmptyString => ""
  | String c rest => jsonEscape c +:+ jsonEscapeAll rest
  end.

Definition dquote : string := String "034"%char "".

(** [JSON.stringify] of a string. *)
Definition jsonString (s : string) : string :=
  dquote +:+ jsonEscapeAll s +:+ dquote.

(** One [key:value] member of a serialized object. *)
Definition member (key value : string) : string :=
  jsonString key +:+ ":" +:+ value.

(** [JSON.stringify] of an object whose members are already serialized,
    in the order the keys were written. *)
Definition jsonObject (members : list string) : string :=
  "{" +:+ join "," members +:+ "}".

(** White space and line terminators removed by [String.prototype.trim],
    for characters below 256. *)
Definition isSpace (c : ascii) : bool :=
  let n := nat_of_ascii c in
  (Nat.leb 9 n && Nat.leb n 13) || Nat.eqb n 32 || Nat.eqb n 160.

Fixpoint trimStart (s : string) : string :=
  match s with
  | EmptyString => ""
  | String c rest => if isSpace c then trimStart rest else s
  end.

(** Drops the trailing white space: a character is kept when something
    that is not white space follows it or it is not white space itself. *)
Fixpoint trimEnd (s : string) : string :=
  match s with
  | EmptyString => ""
  | String c rest =>
      match trimEnd rest with
      | EmptyString => if isSpace c then "" else String c ""
      | kept => String c kept
      end
  end.

Definition trim (s : string) : string := trimEnd (trimStart s).

Fixpoint allSpace (s : string) : bool :=
  match s with
  | EmptyString => true
  | String c rest => isSpace c && allSpace rest
  end.

Definition upperChar (c : ascii) : ascii :=
  let n := nat_of_ascii c in
  if Nat.leb 97 n && Nat.leb n 122 then ascii_of_nat (n - 32) else c.

Fixpoint toUpperCase (s : string) : string :=
  match s with
  | EmptyString => ""
  | String c rest => String (upperChar c) (toUpperCase rest)
  end.

(** Truthiness of a [string | null] and of a [number | null]. *)
Definition truthyString (s : option string) : bool :=
  match s with
  | Some EmptyString | None => false
  | Some _ => true
  end.

Definition truthyNumber (n : option Z) : bool :=
  match n with
  | Some n => negb (n =? 0)
  | None => false
  end.

Definition isNull {A : Type} (a : option A) : bool :=
  match a with Some _ => false | None => true end.

(** [a || b] on strings. *)
Definition orElse (a : option string) (b : string) : string :=
  match a with
  | Some EmptyString | None => b
  | Some s => s
  end.

Fixpoint insertAsc (x : Z) (l : list Z) : list Z :=
  match l with
  | [] => [x]
  | y :: rest => if x <=? y then x :: l else y :: insertAsc x rest
  end.

(** [l.slice().sort((a, b) => a - b)] on integers. *)
Definition sortAsc (l : list Z) : list Z := fold_right insertAsc [] l.

End Js.

(** ** Messages of the test chat *)

Inductive Role : Type := user | assistant.

Record Message : Type := { id : string; role : Role; content : string }.

Definition isUser (r : Role) : bool :=
  match r with user => true | assistant => false end.

(** [message.role === 'user' && !message.id.startsWith('preview-')] *)
Definition isRealUser (message : Message) : bool :=
  isUser (role message) && negb (String.prefix "preview-" (id message)).

(** [messages.some(...)] with the predicate above: the log shows that the
    user is testing by hand. *)
Definition hasRealUser (log : list Message) : bool := existsb isRealUser log.

(** ** The session token cache, shared by both pages *)

Record TokenCache : Type :=
  { sessionToken : option string; sessionTokenExpiry : option Z }.

#[global] Instance TokenCache_eq_dec : EqDecision TokenCache.
Proof. solve_decision. Defined.

Module SessionToken.

Definition safetyWindow : Z := 5000.

Definition empty : TokenCache :=
  {| sessionToken := None; sessionTokenExpiry := None |}.

(** [sessionToken && sessionTokenExpiry &&
     sessionTokenExpiry - safetyWindow > now] *)
Definition usable (c : TokenCache) (now : Z) : bool :=
  Js.truthyString (sessionToken c) && Js.truthyNumber (sessionTokenExpiry c)
  && (default 0 (sessionTokenExpiry c) - safetyWindow >? now).

(** [setSessionToken(newToken);
     setSessionTokenExpiry(Date.now() + expiresIn * 1000)] *)
Definition store (now : Z) (newToken : string) (expiresIn : Z) : TokenCache :=
  {| sessionToken := Some newToken;
     sessionTokenExpiry := Some (now + expiresIn * 1000) |}.

(** How [ensureAgentSessionToken] leaves its synchronous part. *)
Inductive Start : Type :=
| NotReady                  (* throw new Error(...) *)
| Cached (token : string)   (* return sessionToken *)
| Issue (agentId : Z).      (* await api.post(`/api/agents/${agentId}/session-token`) *)

(** The part shared by the two copies of the function, after their guard. *)
Definition start (agentId : Z) (c : TokenCache) (now : Z) : Start :=
  if usable c now then Cached (default "" (sessionToken c)) else Issue agentId.

(** What the token issuer answers, and the clock when it does. *)
Inductive Issuer : Type :=
| Grants (token : string) (expires_in : Z) (answeredAt : Z)
| Rejects.

(** One whole call: the value returned ([None] when the call throws), how
    often the issuer was called and for which agent, and the cache left. *)
Record Outcome : Type :=
  { returned : option string; issuerCalls : list Z; cacheAfter : TokenCache }.

Definition finish (c : TokenCache) (s : Start) (issuer : Issuer) : Outcome :=
  match s with
  | NotReady => {| returned := None; issuerCalls := []; cacheAfter := c |}
  | Cached tok => {| returned := Some tok; issuerCalls := []; cacheAfter := c |}
  | Issue agentId =>
      match issuer with
      | Grants tok expires_in answeredAt =>
          {| returned := Some tok; issuerCalls := [agentId];
             cacheAfter := store answeredAt tok expires_in |}
      | Rejects =>
          {| returned := None; issuerCalls := [agentId]; cacheAfter := c |}
      end
  end.

End SessionToken.

(** ** The test chat page *)

Record Agent : Type := { agent_id : Z; public_id : string }.

Module AgentChatPage.

Record State : Type :=
  { agentId : Z;                 (* parseInt(params.id) *)
    agent : option Agent;        (* useAgent(agentId).data *)
    token : TokenCache }.

(** [if (!agent) throw new Error('Agent not loaded')], then the shared part. *)
Definition ensureAgentSessionToken (s : State) (now : Z) : SessionToken.Start :=
  match agent s with
  | None => SessionToken.NotReady
  | Some _ => SessionToken.start (agentId s) (token s) now
  end.

Definition ensureAgentSessionToken_call
    (s : State) (now : Z) (issuer : SessionToken.Issuer) : SessionToken.Outcome :=
  SessionToken.finish (token s) (ensureAgentSessionToken s now) issuer.

(** [agent?.public_id] *)
Definition publicIdOf (a : option Agent) : option string := public_id <$> a.

(** The query delivers a new agent record; the effect with dependency
    [agent?.public_id] runs when that value changed and clears both
    pieces of the cache. *)
Definition agentChanges (a : option Agent) (s : State) : State :=
  if decide (publicIdOf a = publicIdOf (agent s))
  then {| agentId := agentId s; agent := a; token := token s |}
  else {| agentId := agentId s; agent := a; token := SessionToken.empty |}.

End AgentChatPage.

(** ** The agent builder: configuration and its hash *)

Inductive DomainKey : Type :=
  saas | ecommerce | healthcare | fintech | education | custom.

Definition domainName (d : DomainKey) : string :=
  match d with
  | saas => "saas" | ecommerce => "ecommerce" | healthcare => "healthcare"
  | fintech => "fintech" | education => "education" | custom => "custom"
  end.

Inductive GroundingMode : Type := strict | blended.

Definition groundingName (g : GroundingMode) : string :=
  match g with strict => "strict" | blended => "blended" end.

(** The state the debounce effect serializes. [expertiseLevel] is held in
    tenths (see [Js.showTenths]). *)
Record Config : Type :=
  { domainEnabled : bool;
    selectedPersona : string;
    selectedDocs : list Z;
    webSearchEnabled : bool;
    siteWhitelist : string;
    groundingMode : GroundingMode;
    expertiseLevel : Z;
    additionalContext : string;
    personaOverrides : string;
    domain : DomainKey }.

(** [selectedDocs.slice().sort((a, b) => a - b).join(',')] *)
Definition docHash (c : Config) : string :=
  Js.join "," (map Js.showZ (Js.sortAsc (selectedDocs c))).

(** [JSON.stringify({ domainEnabled, selectedPersona, docHash, ... })] *)
Definition configHash (c : Config) : string :=
  Js.jsonObject
    [ Js.member "domainEnabled" (Js.showBool (domainEnabled c));
      Js.member "selectedPersona" (Js.jsonString (selectedPersona c));
      Js.member "docHash" (Js.jsonString (docHash c));
      Js.member "webSearchEnabled" (Js.showBool (webSearchEnabled c));
      Js.member "siteWhitelist" (Js.jsonString (siteWhitelist c));
      Js.member "groundingMode" (Js.jsonString (groundingName (groundingMode c)));
      Js.member "expertiseLevel" (Js.showTenths (expertiseLevel c));
      Js.member "additionalContext" (Js.jsonString (additionalContext c));
      Js.member "personaOverrides" (Js.jsonString (personaOverrides c));
      Js.member "domain" (Js.jsonString (domainName (domain c))) ].

(** ** The preview round: prompt, messages and requests *)

Definition docCount (c : Config) : Z := Z.of_nat (length (selectedDocs c)).

Definition previewPrompt (c : Config) : string :=
  if domainEnabled c then
    "We just set you up as a " +:+ Js.toUpperCase (domainName (domain c))
    +:+ " concierge with persona " +:+ Js.dquote +:+ selectedPersona c
    +:+ Js.dquote +:+ ". In two sentences, explain how you'll help customers"
    +:+ (if docCount c =? 0 then ""
         else " using " +:+ Js.showZ (docCount c) +:+ " curated source"
              +:+ (if docCount c >? 1 then "s" else ""))
    +:+ "."
  else "Introduce yourself and explain the types of help you provide in two concise sentences.".

(** [{ id: `preview-user-${Date.now()}`, role: 'user', content: previewPrompt }] *)
Definition previewUserMessage (now : Z) (c : Config) : Message :=
  {| id := "preview-user-" +:+ Js.showZ now; role := user;
     content := previewPrompt c |}.

(** [{ id: `preview-assistant-${Date.now() + 1}`, role: 'assistant',
       content: data.response || '(no response)' }] *)
Definition previewAssistantMessage (now : Z) (response : option string) : Message :=
  {| id := "preview-assistant-" +:+ Js.showZ (now + 1); role := assistant;
     content := Js.orElse response "(no response)" |}.

Definition previewErrorMessage (now : Z) : Message :=
  {| id := "preview-error-" +:+ Js.showZ (now + 1); role := assistant;
     content := "Preview unavailable right now. Try again after a moment." |}.

(** The three messages of the manual test chat. *)
Definition testUserMessage (now : Z) (text : string) : Message :=
  {| id := Js.showZ now; role := user; content := text |}.

Definition testAssistantMessage (now : Z) (response : option string) : Message :=
  {| id := Js.showZ (now + 1); role := assistant;
     content := Js.orElse response "(no response)" |}.

Definition testErrorMessage (now : Z) : Message :=
  {| id := Js.showZ (now + 1); role := assistant;
     content := "Error sending message. Try again." |}.

(** The [session_context] the preview sends along. *)
Record SessionContext : Type :=
  { preview : bool;
    ctx_domain : DomainKey;
    persona : string;
    knowledge_docs_selected : Z;
    web_search_enabled : bool }.

Definition previewContext (c : Config) : SessionContext :=
  {| preview := true;
     ctx_domain := domain c;
     persona := selectedPersona c;
     knowledge_docs_selected := docCount c;
     web_search_enabled := if domainEnabled c then webSearchEnabled c else false |}.

Inductive Request : Type :=
| PostSessionToken (agentId : Z)
| PostChat (agentPublicId token message visitorId : string)
           (sessionContext : option SessionContext).

(** [chatApi.sendMessage(createdAgent.public_id, token, previewPrompt,
     `builder-preview-${createdAgent.id}`, undefined, { preview: true, ... })] *)
Definition previewChat (a : Agent) (tok : string) (c : Config) : Request :=
  PostChat (public_id a) tok (previewPrompt c)
           ("builder-preview-" +:+ Js.showZ (agent_id a)) (Some (previewContext c)).

(** [chatApi.sendMessage(createdAgent.public_id, token, userMsg.content,
     `builder-${createdAgent.id}-${random}`)] *)
Definition testChat (a : Agent) (tok text suffix : string) : Request :=
  PostChat (public_id a) tok text
           ("builder-" +:+ Js.showZ (agent_id a) +:+ "-" +:+ suffix) None.

Definition isPreviewRequest (r : Request) : bool :=
  match r with
  | PostChat _ _ _ _ (Some ctx) => preview ctx
  | _ => false
  end.

Inductive Response : Type :=
| TokenOk (token : string) (expires_in : Z)
| ChatOk (response : option string)
| Failed.

(** ** The agent builder: state *)

Module CreateAgent.

(** [previewController.current] *)
Record Controller : Type := { timeout : option nat; hash : string }.

(** What the callbacks of one render have captured: [runAutoPreview] and
    the [ensureAgentSessionToken] inside it read these, not the state at
    the time they run. *)
Record Closure : Type :=
  { cl_agentId : option Z;
    cl_createdAgent : option Agent;
    cl_config : Config;
    cl_token : TokenCache }.

(** A pending [setTimeout(() => { controller.hash = hash; runAutoPreview(); }, 800)]. *)
Record Timer : Type := { deadline : Z; pendingHash : string; closure : Closure }.

(** The function that waits for an answer. *)
Inductive Caller : Type :=
| AutoPreview (started : Z) (a : Agent) (c : Config)
| TestMessage (a : Agent) (text suffix : string).

(** Where it waits: inside [ensureAgentSessionToken], or for the chat. *)
Inductive Task : Type :=
| AwaitToken (k : Caller)
| AwaitChat (k : Caller).

(** What the component does to the outside, in order. *)
Inductive Action : Type :=
| SetTimeout (tid : nat) (due : Z)
| ClearTimeout (tid : nat)
| Run (tid : nat)
| Post (rid : nat) (r : Request).

Record State : Type :=
  { mounted : bool;
    currentStep : Z;
    agentId : option Z;
    createdAgent : option Agent;
    config : Config;
    messages : list Message;
    input : string;
    token : TokenCache;
    messagesRef : list Message;
    previewController : Controller;
    cleanup : bool;              (* the last run of the debounce effect returned its cleanup *)
    messagesChanged : bool;      (* [messages] was set since the last commit *)
    depsChanged : bool;          (* a dependency of the debounce effect was set *)
    timers : gmap nat Timer;
    nextTimer : nat;
    inflight : gmap nat Task;
    nextRequest : nat;
    trace : list Action }.

Definition initialConfig : Config :=
  {| domainEnabled := true; selectedPersona := "support_expert";
     selectedDocs := []; webSearchEnabled := false; siteWhitelist := "";
     groundingMode := blended; expertiseLevel := 7; additionalContext := "";
     personaOverrides := ""; domain := saas |}.

Definition initial : State :=
  {| mounted := true; currentStep := 1; agentId := None; createdAgent := None;
     config := initialConfig; messages := []; input := "";
     token := SessionToken.empty; messagesRef := [];
     previewController := {| timeout := None; hash := "" |};
     cleanup := false; messagesChanged := false; depsChanged := false;
     timers := ∅; nextTimer := 1; inflight := ∅; nextRequest := 1;
     trace := [] |}.

(** *** Field updates *)

Definition with_mounted (v : bool) (s : State) : State :=
  {| mounted := v; currentStep := currentStep s; agentId := agentId s;
     createdAgent := createdAgent s; config := config s; messages := messages s;
     input := input s; token := token s; messagesRef := messagesRef s;
     previewController := previewController s; cleanup := cleanup s;
     messagesChanged := messagesChanged s; depsChanged := depsChanged s;
     timers := timers s; nextTimer := nextTimer s; inflight := inflight s;
     nextRequest := nextRequest s; trace := trace s |}.

Definition with_view (step : Z) (aid : option Z) (a : option Agent) (c : Config)
    (s : State) : State :=
  {| mounted := mounted s; currentStep := step; agentId := aid;
     createdAgent := a; config := c; messages := messages s;
     input := input s; token := token s; messagesRef := messagesRef s;
     previewController := previewController s; cleanup := cleanup s;
     messagesChanged := messagesChanged s; depsChanged := true;
     timers := timers s; nextTimer := nextTimer s; inflight := inflight s;
     nextRequest := nextRequest s; trace := trace s |}.

Definition with_messages (v : list Message) (s : State) : State :=
  {| mounted := mounted s; currentStep := currentStep s; agentId := agentId s;
     createdAgent := createdAgent s; config := config s; messages := v;
     input := input s; token := token s; messagesRef := messagesRef s;
     previewController := previewController s; cleanup := cleanup s;
     messagesChanged := true; depsChanged := depsChanged s;
     timers := timers s; nextTimer := nextTimer s; inflight := inflight s;
     nextRequest := nextRequest s; trace := trace s |}.

Definition with_input (v : string) (s : State) : State :=
  {| mounted := mounted s; currentStep := currentStep s; agentId := agentId s;
     createdAgent := createdAgent s; config := config s; messages := messages s;
     input := v; token := token s; messagesRef := messagesRef s;
     previewController := previewController s; cleanup := cleanup s;
     messagesChanged := messagesChanged s; depsChanged := depsChanged s;
     timers := timers s; nextTimer := nextTimer s; inflight := inflight s;
     nextRequest := nextRequest s; trace := trace s |}.

Definition with_token (v : TokenCache) (changed : bool) (s : State) : State :=
  {| mounted := mounted s; currentStep := currentStep s; agentId := agentId s;
     createdAgent := createdAgent s; config := config s; messages := messages s;
     input := input s; token := v; messagesRef := messagesRef s;
     previewController := previewController s; cleanup := cleanup s;
     messagesChanged := messagesChanged s;
     depsChanged := depsChanged s || changed;
     timers := timers s; nextTimer := nextTimer s; inflight := inflight s;
     nextRequest := nextRequest s; trace := trace s |}.

Definition with_messagesRef (v : list Message) (s : State) : State :=
  {| mounted := mounted s; currentStep := currentStep s; agentId := agentId s;
     createdAgent := createdAgent s; config := config s; messages := messages s;
     input := input s; token := token s; messagesRef := v;
     previewController := previewController s; cleanup := cleanup s;
     messagesChanged := messagesChanged s; depsChanged := depsChanged s;
     timers := timers s; nextTimer := nextTimer s; inflight := inflight s;
     nextRequest := nextRequest s; trace := trace s |}.

Definition with_controller (v : Controller) (s : State) : State :=
  {| mounted := mounted s; currentStep := currentStep s; agentId := agentId s;
     createdAgent := createdAgent s; config := config s; messages := messages s;
     input := input s; token := token s; messagesRef := messagesRef s;
     previewController := v; cleanup := cleanup s;
     messagesChanged := messagesChanged s; depsChanged := depsChanged s;
     timers := timers s; nextTimer := nextTimer s; inflight := inflight s;
     nextRequest := nextRequest s; trace := trace s |}.

Definition with_cleanup (v : bool) (s : State) : State :=
  {| mounted := mounted s; currentStep := currentStep s; agentId := agentId s;
     createdAgent := createdAgent s; config := config s; messages := messages s;
     input := input s; token := token s; messagesRef := messagesRef s;
     previewController := previewController s; cleanup := v;
     messagesChanged := messagesChanged s; depsChanged := depsChanged s;
     timers := timers s; nextTimer := nextTimer s; inflight := inflight s;
     nextRequest := nextRequest s; trace := trace s |}.

Definition with_flags (m d : bool) (s : State) : State :=
  {| mounted := mounted s; currentStep := currentStep s; agentId := agentId s;
     createdAgent := createdAgent s; config := config s; messages := messages s;
     input := input s; token := token s; messagesRef := messagesRef s;
     previewController := previewController s; cleanup := cleanup s;
     messagesChanged := m; depsChanged := d;
     timers := timers s; nextTimer := nextTimer s; inflight := inflight s;
     nextRequest := nextRequest s; trace := trace s |}.

Definition with_timers (v : gmap nat Timer) (next : nat) (s : State) : State :=
  {| mounted := mounted s; currentStep := currentStep s; agentId := agentId s;
     createdAgent := createdAgent s; config := config s; messages := messages s;
     input := input s; token := token s; messagesRef := messagesRef s;
     previewController := previewController s; cleanup := cleanup s;
     messagesChanged := messagesChanged s; depsChanged := depsChanged s;
     timers := v; nextTimer := next; inflight := inflight s;
     nextRequest := nextRequest s; trace := trace s |}.

Definition with_inflight (v : gmap nat Task) (next : nat) (s : State) : State :=
  {| mounted := mounted s; currentStep := currentStep s; agentId := agentId s;
     createdAgent := createdAgent s; config := config s; messages := messages s;
     input := input s; token := token s; messagesRef := messagesRef s;
     previewController := previewController s; cleanup := cleanup s;
     messagesChanged := messagesChanged s; depsChanged := depsChanged s;
     timers := timers s; nextTimer := nextTimer s; inflight := v;
     nextRequest := next; trace := trace s |}.

Definition emit (a : Action) (s : State) : State :=
  {| mounted := mounted s; currentStep := currentStep s; agentId := agentId s;
     createdAgent := createdAgent s; config := config s; messages := messages s;
     input := input s; token := token s; messagesRef := messagesRef s;
     previewController := previewController s; cleanup := cleanup s;
     messagesChanged := messagesChanged s; depsChanged := depsChanged s;
     timers := timers s; nextTimer := nextTimer s; inflight := inflight s;
     nextRequest := nextRequest s; trace := trace s ++ [a] |}.

(** *** The browser: timers and requests *)

Definition setTimeout (t : Timer) (s : State) : State :=
  emit (SetTimeout (nextTimer s) (deadline t))
       (with_timers (<[nextTimer s := t]> (timers s)) (S (nextTimer s)) s).

Definition clearTimeout (tid : nat) (s : State) : State :=
  emit (ClearTimeout tid) (with_timers (delete tid (timers s)) (nextTimer s) s).

(** Sends a request; the function that sent it waits as [task]. *)
Definition post (r : Request) (task : Task) (s : State) : State :=
  emit (Post (nextRequest s) r)
       (with_inflight (<[nextRequest s := task]> (inflight s)) (S (nextRequest s)) s).

(** *** React: state setters are ignored once the component is gone *)

Definition setMessages (f : list Message -> list Message) (s : State) : State :=
  if mounted s then with_messages (f (messages s)) s else s.

Definition setInput (v : string) (s : State) : State :=
  if mounted s then with_input v s else s.

(** [setSessionToken(newToken); setSessionTokenExpiry(...)]: the callbacks
    built on the token change identity when one of the two values does. *)
Definition setToken (v : TokenCache) (s : State) : State :=
  if mounted s then with_token v (bool_decide (v <> token s)) s else s.

(** *** ensureAgentSessionToken *)

Definition closureOf (s : State) : Closure :=
  {| cl_agentId := agentId s; cl_createdAgent := createdAgent s;
     cl_config := config s; cl_token := token s |}.

(** [if (!agentId || !createdAgent) throw new Error('Agent not ready')],
    then the shared part. *)
Definition ensureAgentSessionToken (cl : Closure) (now : Z) : SessionToken.Start :=
  match cl_agentId cl, cl_createdAgent cl with
  | Some aid, Some _ =>
      if aid =? 0 then SessionToken.NotReady
      else SessionToken.start aid (cl_token cl) now
  | _, _ => SessionToken.NotReady
  end.

Definition ensureAgentSessionToken_call
    (cl : Closure) (now : Z) (issuer : SessionToken.Issuer) : SessionToken.Outcome :=
  SessionToken.finish (cl_token cl) (ensureAgentSessionToken cl now) issuer.

(** *** runAutoPreview *)

(** The [catch] branch. *)
Definition runAutoPreview_catch (started now : Z) (c : Config) (s : State) : State :=
  if hasRealUser (messagesRef s) then s
  else setMessages (fun _ => [previewUserMessage started c; previewErrorMessage now]) s.

(** From the call to the first [await] that really waits. *)
Definition runAutoPreview (cl : Closure) (now : Z) (s : State) : State :=
  match cl_createdAgent cl with
  | None => s
  | Some a =>
      if hasRealUser (messagesRef s) then s
      else
        let c := cl_config cl in
        let s1 := setMessages (fun _ => [previewUserMessage now c]) s in
        match ensureAgentSessionToken cl now with
        | SessionToken.Cached tok =>
            post (previewChat a tok c) (AwaitChat (AutoPreview now a c)) s1
        | SessionToken.Issue aid =>
            post (PostSessionToken aid) (AwaitToken (AutoPreview now a c)) s1
        | SessionToken.NotReady => runAutoPreview_catch now now c s1
        end
  end.

(** After [await ensureAgentSessionToken()]. *)
Definition runAutoPreview_token (started : Z) (a : Agent) (c : Config)
    (tok : string) (s : State) : State :=
  post (previewChat a tok c) (AwaitChat (AutoPreview started a c)) s.

(** After [await chatApi.sendMessage(...)]. *)
Definition runAutoPreview_response (started now : Z) (c : Config)
    (response : option string) (s : State) : State :=
  if hasRealUser (messagesRef s) then s
  else setMessages
         (fun _ => [previewUserMessage started c; previewAssistantMessage now response]) s.

(** *** sendTestMessage *)

Definition sendTestMessage_catch (now : Z) (s : State) : State :=
  setMessages (fun p => p ++ [testErrorMessage now]) s.

Definition sendTestMessage (suffix : string) (now : Z) (s : State) : State :=
  match Js.trim (input s), createdAgent s with
  | EmptyString, _ | _, None => s
  | text, Some a =>
      let s1 := setInput "" (setMessages (fun p => p ++ [testUserMessage now text]) s) in
      match ensureAgentSessionToken (closureOf s) now with
      | SessionToken.Cached tok =>
          post (testChat a tok text suffix) (AwaitChat (TestMessage a text suffix)) s1
      | SessionToken.Issue aid =>
          post (PostSessionToken aid) (AwaitToken (TestMessage a text suffix)) s1
      | SessionToken.NotReady => sendTestMessage_catch now s1
      end
  end.

Definition sendTestMessage_token (a : Agent) (text suffix tok : string)
    (s : State) : State :=
  post (testChat a tok text suffix) (AwaitChat (TestMessage a text suffix)) s.

Definition sendTestMessage_response (now : Z) (response : option string)
    (s : State) : State :=
  setMessages (fun p => p ++ [testAssistantMessage now response]) s.

(** *** The effects *)

(** [useEffect(() => { messagesRef.current = messages; }, [messages])] *)
Definition syncMessagesRef (s : State) : State := with_messagesRef (messages s) s.

(** [if (controller.timeout) { clearTimeout(controller.timeout);
     controller.timeout = null; }], the last assignment when [reset]. *)
Definition clearPending (reset : bool) (s : State) : State :=
  match timeout (previewController s) with
  | Some tid =>
      let s1 := clearTimeout tid s in
      if reset
      then with_controller {| timeout := None; hash := hash (previewController s) |} s1
      else s1
  | None => s
  end.

(** The effect on [messages] that stops a pending preview once the user
    has written. *)
Definition cancelOnRealUser (s : State) : State :=
  if hasRealUser (messages s) then clearPending true s else s.

Definition setHash (h : string) (s : State) : State :=
  with_controller {| timeout := timeout (previewController s); hash := h |} s.

Definition quietPeriod : Z := 800.

(** The cleanup the debounce effect returned, if it returned one. *)
Definition debounceCleanup (s : State) : State :=
  if cleanup s then with_cleanup false (clearPending true s) else s.

(** The body of the debounce effect. *)
Definition debounceBody (now : Z) (s : State) : State :=
  if negb (currentStep s =? 3) || Js.isNull (createdAgent s)
     || negb (Js.truthyNumber (agentId s))
  then setHash "" (clearPending true s)
  else if hasRealUser (messagesRef s) then setHash "" s
  else
    let h := configHash (config s) in
    if String.eqb (hash (previewController s)) h then s
    else
      let s1 := clearPending false s in
      let tid := nextTimer s1 in
      let s2 := setTimeout {| deadline := now + quietPeriod; pendingHash := h;
                              closure := closureOf s |} s1 in
      with_cleanup true
        (with_controller {| timeout := Some tid; hash := hash (previewController s2) |} s2).

Definition debounceEffect (now : Z) (s : State) : State :=
  debounceBody now (debounceCleanup s).

(** What React does after a handler: the effects whose dependencies were
    set run, in the order they are written. *)
Definition commit (now : Z) (s : State) : State :=
  if mounted s then
    let s1 := if messagesChanged s then cancelOnRealUser (syncMessagesRef s) else s in
    let s2 := if depsChanged s then debounceEffect now s1 else s1 in
    with_flags false false s2
  else s.

(** *** Events and the step of the component *)

Inductive Event : Type :=
| SetConfig (c : Config)             (* a setter of the configuration form *)
| SetCurrentStep (n : Z)
| SetAgentId (aid : Z)               (* the agent was created *)
| AgentData (a : option Agent)       (* useAgent delivers, or loses, the record *)
| SetInput (v : string)
| SendTestMessage (suffix : string)  (* click; [suffix] is the random part of the visitor id *)
| TimerFires (tid : nat)
| Settles (rid : nat) (r : Response)
| Unmount.

(** The timer callback: [controller.hash = hash; runAutoPreview();] *)
Definition timerCallback (t : Timer) (now : Z) (s : State) : State :=
  runAutoPreview (closure t) now (setHash (pendingHash t) s).

(** The answer to request [rid] resumes the function that waits for it. An
    answer of the wrong kind for the request is not an event of the
    system: the state stays as it is. *)
Definition resume (rid : nat) (task : Task) (r : Response) (now : Z)
    (s : State) : State :=
  let s0 := with_inflight (delete rid (inflight s)) (nextRequest s) s in
  match task, r with
  | AwaitToken (AutoPreview started a c), TokenOk tok expires_in =>
      runAutoPreview_token started a c tok
        (setToken (SessionToken.store now tok expires_in) s0)
  | AwaitToken (TestMessage a text suffix), TokenOk tok expires_in =>
      sendTestMessage_token a text suffix tok
        (setToken (SessionToken.store now tok expires_in) s0)
  | AwaitToken (AutoPreview started a c), Failed
  | AwaitChat (AutoPreview started a c), Failed =>
      runAutoPreview_catch started now c s0
  | AwaitToken (TestMessage _ _ _), Failed
  | AwaitChat (TestMessage _ _ _), Failed =>
      sendTestMessage_catch now s0
  | AwaitChat (AutoPreview started a c), ChatOk response =>
      runAutoPreview_response started now c response s0
  | AwaitChat (TestMessage _ _ _), ChatOk response =>
      sendTestMessage_response now response s0
  | AwaitToken _, ChatOk _ | AwaitChat _, TokenOk _ _ => s
  end.

Definition handle (now : Z) (ev : Event) (s : State) : State :=
  match ev with
  | SetConfig c =>
      if mounted s then with_view (currentStep s) (agentId s) (createdAgent s) c s else s
  | SetCurrentStep n =>
      if mounted s then with_view n (agentId s) (createdAgent s) (config s) s else s
  | SetAgentId aid =>
      if mounted s then with_view (currentStep s) (Some aid) (createdAgent s) (config s) s
      else s
  | AgentData a =>
      if mounted s then with_view (currentStep s) (agentId s) a (config s) s else s
  | SetInput v => setInput v s
  | SendTestMessage suffix => if mounted s then sendTestMessage suffix now s else s
  | TimerFires tid =>
      match timers s !! tid with
      | Some t =>
          if deadline t <=? now
          then timerCallback t now
                 (emit (Run tid) (with_timers (delete tid (timers s)) (nextTimer s) s))
          else s
      | None => s
      end
  | Settles rid r =>
      match inflight s !! rid with
      | Some task => resume rid task r now s
      | None => s
      end
  | Unmount => if mounted s then with_mounted false (debounceCleanup s) else s
  end.

Definition step (now : Z) (s : State) (ev : Event) : State :=
  commit now (handle now ev s).

(** A run: events with the time at which each one happens. *)
Definition run (s : State) (evs : list (Z * Event)) : State :=
  fold_left (fun s e => step (fst e) s (snd e)) evs s.

(** The requests among some actions. *)
Definition requests (acts : list Action) : list Request :=
  omap (fun a => match a with Post _ r => Some r | _ => None end) acts.

Definition isSetTimeout (a : Action) : bool :=
  match a with SetTimeout _ _ => true | _ => false end.

End CreateAgent.

(** ** Notions used to state the properties *)

(** Two snapshots agree on every field, and select the same documents in
    some order. *)
Definition sameUpToDocOrder (c1 c2 : Config) : Prop :=
  domainEnabled c1 = domainEnabled c2 /\
  selectedPersona c1 = selectedPersona c2 /\
  selectedDocs c1 ≡ₚ selectedDocs c2 /\
  webSearchEnabled c1 = webSearchEnabled c2 /\
  siteWhitelist c1 = siteWhitelist c2 /\
  groundingMode c1 = groundingMode c2 /\
  expertiseLevel c1 = expertiseLevel c2 /\
  additionalContext c1 = additionalContext c2 /\
  personaOverrides c1 = personaOverrides c2 /\
  domain c1 = domain c2.

(** The id carries the mark of the automatic preview. *)
Definition isPreviewId (m : Message) : bool := String.prefix "preview-" (id m).

(** What the token operation of a page promises. [readyB] tells whether
    the agent is loaded, [aid] is the agent the issuer is asked for and
    [call cache now issuer] is one whole call on the given cache. *)
Definition tokenContract (readyB : bool) (aid : Z)
    (call : TokenCache -> Z -> SessionToken.Issuer -> SessionToken.Outcome) : Prop :=
  forall (cache : TokenCache) (now : Z) (issuer : SessionToken.Issuer),
    let out := call cache now issuer in
    let inWindow :=
      exists tok e, sessionToken cache = Some tok /\ tok <> "" /\
                    sessionTokenExpiry cache = Some e /\ e <> 0 /\ e - 5000 > now in
    (readyB = false ->
       out = {| SessionToken.returned := None; SessionToken.issuerCalls := [];
                SessionToken.cacheAfter := cache |}) /\
    (readyB = true ->
       (forall tok e,
           sessionToken cache = Some tok -> tok <> "" ->
           sessionTokenExpiry cache = Some e -> e <> 0 -> e - 5000 > now ->
           out = {| SessionToken.returned := Some tok; SessionToken.issuerCalls := [];
                    SessionToken.cacheAfter := cache |}) /\
       (~ inWindow ->
          match issuer with
          | SessionToken.Grants tok expires_in answeredAt =>
              let expiry := answeredAt + expires_in * 1000 in
              out = {| SessionToken.returned := Some tok;
                       SessionToken.issuerCalls := [aid];
                       SessionToken.cacheAfter :=
                         {| sessionToken := Some tok; sessionTokenExpiry := Some expiry |} |}
              /\ (forall now2 issuer2,
                     tok <> "" -> expiry <> 0 -> expiry - 5000 > now2 ->
                     call (SessionToken.cacheAfter out) now2 issuer2 =
                       {| SessionToken.returned := Some tok;
                          SessionToken.issuerCalls := [];
                          SessionToken.cacheAfter := SessionToken.cacheAfter out |})
          | SessionToken.Rejects =>
              out = {| SessionToken.returned := None; SessionToken.issuerCalls := [aid];
                       SessionToken.cacheAfter := cache |}
          end)).

Module Run.
Import CreateAgent.

(** Between two events: the effects have run, [messagesRef] mirrors
    [messages] and nothing waits for a commit. *)
Definition committed (s : State) : Prop :=
  messagesRef s = messages s /\ messagesChanged s = false /\ depsChanged s = false.

(** The actions done on the way from [s] to [s']. *)
Definition actionsOf (s s' : State) : list Action :=
  drop (length (trace s)) (trace s').

(** The calls of [setTimeout] among some actions. *)
Definition armings (acts : list Action) : list Action :=
  List.filter isSetTimeout acts.

(** The preview requests among some actions. *)
Definition previewRequests (acts : list Action) : list Request :=
  List.filter isPreviewRequest (requests acts).

Definition isTimerAction (a : Action) : bool :=
  match a with SetTimeout _ _ | ClearTimeout _ => true | _ => false end.

Definition isClearTimeout (a : Action) : bool :=
  match a with ClearTimeout _ => true | _ => false end.

(** [s'] has the React state, the requests and the tasks of [s]: it may
    differ in what the effects write, that is the ref, the controller and
    the timers. *)
Definition sameData (s s' : State) : Prop :=
  mounted s' = mounted s /\ currentStep s' = currentStep s /\
  agentId s' = agentId s /\ createdAgent s' = createdAgent s /\
  config s' = config s /\ messages s' = messages s /\ input s' = input s /\
  token s' = token s /\ inflight s' = inflight s /\
  nextRequest s' = nextRequest s.

(** [s'] extends the trace of [s] by actions that all satisfy [p]. *)
Definition extends (p : Action -> bool) (s s' : State) : Prop :=
  exists acts, trace s' = trace s ++ acts /\ forallb p acts = true.

Definition notSetTimeout (a : Action) : bool := negb (isSetTimeout a).

(** A preview round of [s] waits for its session token, and [r] is the
    chat request this round sends once it has one. *)
Definition fromWaitingRound (s : State) (r : Request) : Prop :=
  exists rid started a c tok,
    inflight s !! rid = Some (AwaitToken (AutoPreview started a c)) /\
    r = previewChat a tok c.

(** The preview rounds of [s'] that wait for a token did so in [s]. *)
Definition noNewRound (s s' : State) : Prop :=
  forall rid started a c,
    inflight s' !! rid = Some (AwaitToken (AutoPreview started a c)) ->
    inflight s !! rid = Some (AwaitToken (AutoPreview started a c)).

(** What a handler may do once the user's own message is in the ref:
    append messages without the preview mark, send requests of which the
    preview ones belong to rounds that waited for their token, never call
    [setTimeout], start no round. *)
Definition afterRealUser (s s' : State) : Prop :=
  (exists extra, messages s' = messages s ++ extra /\
                 forallb (fun m => negb (isPreviewId m)) extra = true) /\
  noNewRound s s' /\
  exists acts, trace s' = trace s ++ acts /\
               forallb notSetTimeout acts = true /\
               Forall (fromWaitingRound s) (previewRequests acts).

(** A state of the builder used in examples: agent 42 is created and
    loaded and the configuration step is shown at time 1000, which arms
    timer 1 for time 1800. *)
Definition agent42 : Agent := {| agent_id := 42; public_id := "pub-42" |}.

Definition configuring : State :=
  run initial [(0, SetAgentId 42); (10, AgentData (Some agent42));
               (1000, SetCurrentStep 3)].

(** The task belongs to a round of the automatic preview. *)
Definition isPreviewTask (t : Task) : bool :=
  match t with
  | AwaitToken (AutoPreview _ _ _) | AwaitChat (AutoPreview _ _ _) => true
  | _ => false
  end.

(** At most one timer is pending; it is the one the controller holds, and
    the debounce effect has left its cleanup behind. *)
Definition timerInv (s : State) : Prop :=
  timers s = ∅ \/
  exists tid t, timers s = {[ tid := t ]} /\
                timeout (previewController s) = Some tid /\ cleanup s = true.

(** The events that take the preview away: the page is left, another
    step is shown, the agent record is lost. *)
Definition isTeardown (ev : Event) : bool :=
  match ev with
  | Unmount | AgentData None => true
  | SetCurrentStep n => negb (n =? 3)
  | _ => false
  end.








Definition salesConfig : Config :=
  {| domainEnabled := true; selectedPersona := "sales_rep";
     selectedDocs := [3; 1]; webSearchEnabled := false; siteWhitelist := "";
     groundingMode := blended; expertiseLevel := 7; additionalContext := "";
     personaOverrides := ""; domain := saas |}.

(** The agent is loaded, as [ensureAgentSessionToken] tests it. *)
Definition ready (cl : Closure) : bool :=
  Js.truthyNumber (cl_agentId cl) && negb (Js.isNull (cl_createdAgent cl)).


End Run.

(** * More of the builder and of the edit page *)

(** ** More JavaScript primitives *)

Module JsText.

(** [s.split(sep)] for a separator of one character. *)
Fixpoint split (sep : ascii) (s : string) : list string :=
  match s with
  | EmptyString => [""]
  | String c rest =>
      if Ascii.eqb c sep then "" :: split sep rest
      else match split sep rest with
           | [] => [String c ""]
           | piece :: pieces => String c piece :: pieces
           end
  end.

(** [l.includes(x)] *)
Definition includes (x : string) (l : list string) : bool := existsb (String.eqb x) l.

Definition includesZ (x : Z) (l : list Z) : bool := existsb (Z.eqb x) l.

(** A string is truthy when it is not empty. *)
Definition nonEmpty (s : string) : bool :=
  match s with EmptyString => false | String _ _ => true end.

(** [l.filter((_, i) => p(i))], counting from [i]. *)
Fixpoint filterIndex {A : Type} (p : Z -> bool) (i : Z) (l : list A) : list A :=
  match l with
  | [] => []
  | x :: rest =>
      if p i then x :: filterIndex p (i + 1) rest else filterIndex p (i + 1) rest
  end.

(** [Array.from(new Set(l))]: the first occurrence of each value, in order. *)
Definition addUnique (seen : list string) (x : string) : list string :=
  if includes x seen then seen else seen ++ [x].

Definition uniqueFirst (l : list string) : list string := fold_left addUnique l [].

Definition lowerChar (c : ascii) : ascii :=
  let n := nat_of_ascii c in
  if Nat.leb 65 n && Nat.leb n 90 then ascii_of_nat (n + 32) else c.

Fixpoint toLowerCase (s : string) : string :=
  match s with
  | EmptyString => ""
  | String c rest => String (lowerChar c) (toLowerCase rest)
  end.

(** The two line feeds of [`${prev}\n\n${text}`]. *)
Definition blankLine : string := String "010"%char (String "010"%char "").

Fixpoint containsChar (c : ascii) (s : string) : bool :=
  match s with
  | EmptyString => false
  | String d rest => Ascii.eqb d c || containsChar c rest
  end.

End JsText.

(** ** The forms of the builder and of the edit page *)

Module Forms.

Definition DomainKey_eqb (a b : DomainKey) : bool :=
  String.eqb (domainName a) (domainName b).

(** [siteWhitelist.split(',').map((value) => value.trim()).filter(Boolean)];
    the edit page filters with [entry.length > 0], which is the same test. *)
Definition whitelistArray (siteWhitelist : string) : list string :=
  List.filter JsText.nonEmpty (map Js.trim (JsText.split "," siteWhitelist)).

(** An entry as the parser gives it: not empty, trimmed, without a comma. *)
Definition cleanEntry (e : string) : Prop :=
  e <> "" /\ Js.trim e = e /\ JsText.containsChar "," e = false.

(** [whitelist.join(', ')], as the edit page fills the field. *)
Definition whitelistText (whitelist : list string) : string := Js.join ", " whitelist.

(** [prev.includes(docId) ? prev.filter((id) => id !== docId) : [...prev, docId]] *)
Definition toggleDocument (docId : Z) (prev : list Z) : list Z :=
  if JsText.includesZ docId prev
  then List.filter (fun id => negb (id =? docId)) prev
  else prev ++ [docId].

Definition withDocs (docs : list Z) (c : Config) : Config :=
  {| domainEnabled := domainEnabled c; selectedPersona := selectedPersona c;
     selectedDocs := docs; webSearchEnabled := webSearchEnabled c;
     siteWhitelist := siteWhitelist c; groundingMode := groundingMode c;
     expertiseLevel := expertiseLevel c; additionalContext := additionalContext c;
     personaOverrides := personaOverrides c; domain := domain c |}.

(** [prev.filter((_, i) => i !== index)], of [handleRemoveFile] and
    [handleRemoveUrl]. *)
Definition removeAt {A : Type} (index : Z) (prev : list A) : list A :=
  JsText.filterIndex (fun i => negb (i =? index)) 0 prev.

(** [DOMAIN_DEFAULTS[domain].persona] *)
Definition defaultPersona (d : DomainKey) : string :=
  match d with
  | saas => "support_expert"
  | ecommerce => "sales_rep"
  | healthcare => "domain_specialist"
  | fintech => "solution_engineer"
  | education => "domain_specialist"
  | custom => "custom"
  end.

(** [DOMAIN_GUIDANCE[domain].starterPack] *)
Record StarterPack : Type :=
  { sp_urls : list string; sp_additionalContext : string; sp_personaTips : string }.

Definition starterPack (d : DomainKey) : StarterPack :=
  match d with
  | saas =>
      {| sp_urls := ["https://example.com/docs/getting-started";
                     "https://example.com/docs/pricing"];
         sp_additionalContext := "Emphasize quick triage, link to status page for incidents, and surface upgrade pathways after resolving an issue.";
         sp_personaTips := "Warm, confident, and proactive. Recommend relevant playbooks when the customer is blocked." |}
  | ecommerce =>
      {| sp_urls := ["https://example.com/help/shipping";
                     "https://example.com/help/returns"];
         sp_additionalContext := "Always confirm inventory status before upselling accessories. Flag potential VIP or high-risk orders for review.";
         sp_personaTips := "Friendly retail concierge with focus on reassurance. Mention loyalty benefits when relevant." |}
  | healthcare =>
      {| sp_urls := ["https://example.com/patients/hipaa-overview";
                     "https://example.com/patients/prep-checklist"];
         sp_additionalContext := "Remind users the assistant cannot provide diagnoses. Direct urgent symptoms to emergency contacts immediately.";
         sp_personaTips := "Calm, professional, and compliance-first. Confirm understanding before offering next steps." |}
  | fintech =>
      {| sp_urls := ["https://example.com/compliance/pci-guide";
                     "https://example.com/product/architecture"];
         sp_additionalContext := "Call out regulatory references (PCI, SOC2) and tie recommendations back to risk mitigation. Document audit trails on critical flows.";
         sp_personaTips := "Pragmatic solutions engineer. Provides diagrams or step lists where possible." |}
  | education =>
      {| sp_urls := ["https://example.com/academics/calendar";
                     "https://example.com/academics/advising"];
         sp_additionalContext := "Cheer students on, reference specific departments, and surface support hours proactively.";
         sp_personaTips := "Encouraging academic advisor tone. Uses inclusive language and celebrates milestones." |}
  | custom =>
      {| sp_urls := [];
         sp_additionalContext := "Document the top five conversation intents and include escalation expectations. Calibrate tone with brand guidelines.";
         sp_personaTips := "Flexible but brand-aligned. Provide examples of voice do/don’t to steer the LLM." |}
  end.

(** The state of the builder that the knowledge and guidance forms read
    and write. *)
Record State : Type :=
  { urlInput : string;
    uploadedUrls : list string;
    config : Config;
    starterPackApplied : bool;
    infos : list string }.        (* what [handleInfo] was called with *)

Definition initial (c : Config) : State :=
  {| urlInput := ""; uploadedUrls := []; config := c; starterPackApplied := false;
     infos := [] |}.

Definition with_urls (input : string) (urls : list string) (s : State) : State :=
  {| urlInput := input; uploadedUrls := urls; config := config s;
     starterPackApplied := starterPackApplied s; infos := infos s |}.

Definition withGuidance (context overrides : string) (c : Config) : Config :=
  {| domainEnabled := domainEnabled c; selectedPersona := selectedPersona c;
     selectedDocs := selectedDocs c; webSearchEnabled := webSearchEnabled c;
     siteWhitelist := siteWhitelist c; groundingMode := groundingMode c;
     expertiseLevel := expertiseLevel c; additionalContext := context;
     personaOverrides := overrides; domain := domain c |}.

Definition withDomain (d : DomainKey) (persona : string) (c : Config) : Config :=
  {| domainEnabled := domainEnabled c; selectedPersona := persona;
     selectedDocs := selectedDocs c; webSearchEnabled := webSearchEnabled c;
     siteWhitelist := siteWhitelist c; groundingMode := groundingMode c;
     expertiseLevel := expertiseLevel c; additionalContext := additionalContext c;
     personaOverrides := personaOverrides c; domain := d |}.

(** [handleUrlAdd] *)
Definition handleUrlAdd (s : State) : State :=
  let url := Js.trim (urlInput s) in
  if JsText.nonEmpty url && negb (JsText.includes url (uploadedUrls s))
  then with_urls "" (uploadedUrls s ++ [url]) s
  else s.

(** [handleRemoveUrl] *)
Definition handleRemoveUrl (index : Z) (s : State) : State :=
  with_urls (urlInput s) (removeAt index (uploadedUrls s)) s.

(** [prev?.trim() ? `${prev}\n\n${text}` : text] *)
Definition appendGuidance (prev text : string) : string :=
  if JsText.nonEmpty (Js.trim prev) then prev +:+ JsText.blankLine +:+ text else text.

(** [applyStarterPack]; [DOMAIN_GUIDANCE] has an entry for every domain, so
    the guard [if (!domainGuidance) return] never fires. *)
Definition applyStarterPack (s : State) : State :=
  let pack := starterPack (domain (config s)) in
  let uniqueUrls := JsText.uniqueFirst (uploadedUrls s ++ sp_urls pack) in
  {| urlInput := urlInput s;
     uploadedUrls :=
       if negb (Nat.eqb (length uniqueUrls) (length (uploadedUrls s)))
       then uniqueUrls else uploadedUrls s;
     config :=
       withGuidance
         (appendGuidance (additionalContext (config s)) (sp_additionalContext pack))
         (appendGuidance (personaOverrides (config s)) (sp_personaTips pack))
         (config s);
     starterPackApplied := true;
     infos := infos s ++
       ["Starter guidance loaded for " +:+ Js.toUpperCase (domainName (domain (config s)))
        +:+ ". Adjust the text or remove any URLs you don't need before publishing."] |}.

(** [setDomain(d)] with the effect on [domain] that follows it: the persona
    becomes the default of the domain and the starter pack can be applied
    again. Choosing the domain already selected renders nothing anew. *)
Definition setDomain (d : DomainKey) (s : State) : State :=
  if DomainKey_eqb d (domain (config s)) then s
  else {| urlInput := urlInput s; uploadedUrls := uploadedUrls s;
          config := withDomain d (defaultPersona d) (config s);
          starterPackApplied := false; infos := infos s |}.

(** What the user does on the knowledge and guidance forms. *)
Inductive Event : Type :=
| SetUrlInput (value : string)     (* onChange of the URL field *)
| UrlAdd                           (* the Add button *)
| RemoveUrl (index : Z)            (* the remove button of a URL *)
| StarterPackClick                 (* disabled={starterPackApplied} *)
| SetDomain (d : DomainKey)
| UploadsDone.                     (* the end of [handleUploadDocuments] *)

Definition step (s : State) (ev : Event) : State :=
  match ev with
  | SetUrlInput value => with_urls value (uploadedUrls s) s
  | UrlAdd => handleUrlAdd s
  | RemoveUrl index => handleRemoveUrl index s
  | StarterPackClick => if starterPackApplied s then s else applyStarterPack s
  | SetDomain d => setDomain d s
  | UploadsDone => with_urls (urlInput s) [] s
  end.

Definition run (s : State) (evs : list Event) : State := fold_left step evs s.

(** A URL as the forms store it: not empty and trimmed. *)
Definition cleanUrls (urls : list string) : Prop :=
  NoDup urls /\ Forall (fun u => u <> "" /\ Js.trim u = u) urls.

End Forms.

(** ** The domain expertise payload *)

Module DomainExpertise.

(** [custom_persona]; [tactics] is written by the edit page only: when it
    is, it holds the additional instructions or is the empty object. *)
Record CustomPersona : Type :=
  { name : string; system_prompt : string; tactics : option (option string) }.

Record Payload : Type :=
  { enabled : bool;
    knowledge_document_ids : list Z;
    web_search_enabled : bool;
    site_whitelist : list string;
    grounding_mode : GroundingMode;
    expertise_level : option Z;
    additional_context : option string;
    persona_key : option string;
    custom_persona : option CustomPersona;
    persona_overrides : option string }.   (* [{ additional_instructions }] *)

(** [text ? text : undefined] for the optional members. *)
Definition whenNonEmpty (text : string) : option string :=
  if JsText.nonEmpty text then Some text else None.

(** [buildDomainExpertisePayload] of the builder. *)
Definition buildDomainExpertisePayload (c : Config) (customPersonaPrompt : string)
    : Payload :=
  if negb (domainEnabled c) then
    {| enabled := false; knowledge_document_ids := []; web_search_enabled := false;
       site_whitelist := []; grounding_mode := blended; expertise_level := None;
       additional_context := None; persona_key := None; custom_persona := None;
       persona_overrides := None |}
  else
    let custom := String.eqb (selectedPersona c) "custom" in
    {| enabled := true;
       knowledge_document_ids := selectedDocs c;
       web_search_enabled := webSearchEnabled c;
       site_whitelist := Forms.whitelistArray (siteWhitelist c);
       grounding_mode := groundingMode c;
       expertise_level := Some (expertiseLevel c);
       additional_context := whenNonEmpty (Js.trim (additionalContext c));
       persona_key := if custom then None else Some (selectedPersona c);
       custom_persona :=
         if custom
         then Some {| name := "Custom Persona"; system_prompt := customPersonaPrompt;
                      tactics := None |}
         else None;
       persona_overrides := whenNonEmpty (Js.trim (personaOverrides c)) |}.

(** What [handleDomainSave] of the edit page does. *)
Inductive Save : Type :=
| Alert (message : string)       (* window.alert(...) and nothing else *)
| Mutate (payload : Payload).    (* updateDomainExpertise.mutate(payload) *)

Definition handleDomainSave (c : Config) (customPersonaPrompt : string) : Save :=
  let custom := String.eqb (selectedPersona c) "custom" in
  if domainEnabled c && custom && negb (JsText.nonEmpty (Js.trim customPersonaPrompt))
  then Alert "Please provide a system prompt for the custom persona."
  else
    let on := domainEnabled c in
    Mutate
      {| enabled := on;
         knowledge_document_ids := if on then selectedDocs c else [];
         web_search_enabled := if on then webSearchEnabled c else false;
         site_whitelist := if on then Forms.whitelistArray (siteWhitelist c) else [];
         grounding_mode := if on then groundingMode c else blended;
         expertise_level := if on then Some (expertiseLevel c) else None;
         additional_context := if on then Some (additionalContext c) else None;
         persona_key := if on && negb custom then Some (selectedPersona c) else None;
         custom_persona :=
           if on && custom
           then Some {| name := "Custom Persona"; system_prompt := customPersonaPrompt;
                        tactics := Some (whenNonEmpty (personaOverrides c)) |}
           else None;
         persona_overrides :=
           if on && negb custom then whenNonEmpty (Js.trim (personaOverrides c))
           else None |}.

(** [PERSONA_OPTIONS.map((option) => option.value)] *)
Definition personaOptions : list string :=
  ["sales_rep"; "solution_engineer"; "support_expert"; "domain_specialist"; "custom"].

(** The persona the edit page selects for an agent whose
    [domain_expertise_type] is [raw] ([None] when it is missing). *)
Definition normalizedPersona (raw : option string) : string :=
  let personaTypeRaw := Js.orElse raw "custom" in
  let personaKey := JsText.toLowerCase personaTypeRaw in
  if JsText.includes personaKey personaOptions then personaKey else "custom".

End DomainExpertise.

(** ** The upload queue of the builder *)

Module Upload.

Inductive ItemType : Type := file | url.

Inductive Status : Type := pending | uploading | success | error.

Record UploadItemStatus : Type :=
  { id : string; label : string; type : ItemType; status : Status }.

Record File : Type := { file_name : string; lastModified : Z }.

(** An entry of the queue: its id and what is uploaded. *)
Inductive QueueItem : Type :=
| FileItem (item_id : string) (f : File)
| UrlItem (item_id : string) (u : string).

Definition itemId (q : QueueItem) : string :=
  match q with FileItem i _ | UrlItem i _ => i end.

Definition itemLabel (q : QueueItem) : string :=
  match q with FileItem _ f => file_name f | UrlItem _ u => u end.

Definition itemType (q : QueueItem) : ItemType :=
  match q with FileItem _ _ => file | UrlItem _ _ => url end.

(** [item.id === id ? { ...item, status } : item] *)
Definition setStatus (i : string) (st : Status) (item : UploadItemStatus)
    : UploadItemStatus :=
  if String.eqb (id item) i
  then {| id := id item; label := label item; type := type item; status := st |}
  else item.

(** [prev.map((item) => (item.id === id ? { ...item, status } : item))] *)
Definition updateUploadStatus (i : string) (st : Status) (prev : list UploadItemStatus)
    : list UploadItemStatus :=
  map (setStatus i st) prev.

Definition Status_eqb (a b : Status) : bool :=
  match a, b with
  | pending, pending | uploading, uploading | success, success | error, error => true
  | _, _ => false
  end.

(** [uploadStatuses.filter((item) => item.status === st).length] *)
Definition count (st : Status) (uploadStatuses : list UploadItemStatus) : Z :=
  Z.of_nat (length (List.filter (fun item => Status_eqb (status item) st) uploadStatuses)).

(** The counts of [uploadProgress]. Its [percentage] is a rounded quotient
    of floating point numbers and is not modelled. *)
Record Progress : Type := { total : Z; completed : Z; failed : Z; inFlight : Z }.

Definition uploadProgress (uploadStatuses : list UploadItemStatus) : Progress :=
  match uploadStatuses with
  | [] => {| total := 0; completed := 0; failed := 0; inFlight := 0 |}
  | _ =>
      {| total := Z.of_nat (length uploadStatuses);
         completed := count success uploadStatuses;
         failed := count error uploadStatuses;
         inFlight := count uploading uploadStatuses |}
  end.

(** The number shown as queued:
    [uploadStatuses.length - completed - failed - inFlight]. *)
Definition queuedShown (uploadStatuses : list UploadItemStatus) : Z :=
  let p := uploadProgress uploadStatuses in
  Z.of_nat (length uploadStatuses) - completed p - failed p - inFlight p.

(** The queue: the files, then the URLs. [random n] is the text the n-th
    call of [Math.random().toString(36).slice(...)] gives. *)
Definition buildQueue (files : list File) (urls : list string) (random : nat -> string)
    : list QueueItem :=
  imap (fun n f =>
          FileItem ("file-" +:+ file_name f +:+ "-" +:+ Js.showZ (lastModified f)
                    +:+ "-" +:+ random n) f) files
  ++ imap (fun n u => UrlItem ("url-" +:+ u +:+ "-" +:+ random (length files + n)%nat) u)
       urls.

Record State : Type :=
  { agentId : option Z;
    uploadedFiles : list File;
    uploadedUrls : list string;
    uploadStatuses : list UploadItemStatus;
    currentStep : Z;
    uploads : list (Z * QueueItem) }.     (* the calls of the two upload mutations *)

(** The entry [setUploadStatuses] makes for an item of the queue. *)
Definition queuedEntry (item : QueueItem) : UploadItemStatus :=
  {| id := itemId item; label := itemLabel item; type := itemType item;
     status := pending |}.

(** The status an item ends with: [success] when its upload succeeds. *)
Definition outcome (succeeds : bool) : Status := if succeeds then success else error.

(** The loop over the queue; [ok n] tells whether the upload of the item
    at position [n] of the queue succeeds. *)
Fixpoint uploadAll (aid : Z) (ok : nat -> bool) (n : nat) (queue : list QueueItem)
    (statuses : list UploadItemStatus) (calls : list (Z * QueueItem))
    : list UploadItemStatus * list (Z * QueueItem) :=
  match queue with
  | [] => (statuses, calls)
  | item :: rest =>
      let started := updateUploadStatus (itemId item) uploading statuses in
      let finished := updateUploadStatus (itemId item) (outcome (ok n)) started in
      uploadAll aid ok (S n) rest finished (calls ++ [(aid, item)])
  end.

(** [handleUploadDocuments], run to its end with no other event in
    between. *)
Definition handleUploadDocuments (random : nat -> string) (ok : nat -> bool)
    (s : State) : State :=
  match agentId s with
  | None => s
  | Some aid =>
      if aid =? 0 then s
      else
        let queue := buildQueue (uploadedFiles s) (uploadedUrls s) random in
        match queue with
        | [] =>
            {| agentId := agentId s; uploadedFiles := uploadedFiles s;
               uploadedUrls := uploadedUrls s; uploadStatuses := [];
               currentStep := 3; uploads := uploads s |}
        | _ =>
            let '(statuses, calls) :=
              uploadAll aid ok 0 queue (map queuedEntry queue) (uploads s) in
            {| agentId := agentId s; uploadedFiles := []; uploadedUrls := [];
               uploadStatuses := statuses; currentStep := 3; uploads := calls |}
        end
  end.

(** A builder with one file and one URL to upload. *)
Definition twoItems : State :=
  {| agentId := Some 7;
     uploadedFiles := [{| file_name := "faq.pdf"; lastModified := 1700000000000 |}];
     uploadedUrls := ["https://example.com/docs/pricing"];
     uploadStatuses := []; currentStep := 2; uploads := [] |}.

(** An upload that has ended. *)
Definition finished (item : UploadItemStatus) : Prop :=
  status item = success \/ status item = error.

End Upload.

(** ** The idempotency key *)

Module Idempotency.

(** [v.toString(16)] for [0 <= v < 16]. *)
Definition hex (v : Z) : ascii := Js.hexDigit (Z.to_nat v).

(** The callback of [replace(/[xy]/g, ...)]; [r] is [(Math.random() * 16) | 0]. *)
Definition replacement (c : ascii) (r : Z) : ascii :=
  hex (if Ascii.eqb c "x" then r else Z.lor (Z.land r 3) 8).

(** Walks the template; [n] counts the calls of [Math.random] so far. *)
Fixpoint fill (template : string) (random : nat -> Z) (n : nat) : string :=
  match template with
  | EmptyString => ""
  | String c rest =>
      if Ascii.eqb c "x" || Ascii.eqb c "y"
      then String (replacement c (random n)) (fill rest random (S n))
      else String c (fill rest random n)
  end.

(** The fallback of [generateIdempotencyKey], used when the browser has no
    [crypto.randomUUID]. *)
Definition generateIdempotencyKey_fallback (random : nat -> Z) : string :=
  fill "xxxxxxxx-xxxx-4xxx-yxxx-xxxxxxxxxxxx" random 0.

(** The shape of a version 4 UUID: in the pattern an [x] stands for a hex
    digit in lower case, a [y] for one of 8, 9, a and b, and every other
    character for itself. *)
Definition isHex (c : ascii) : bool :=
  existsb (Ascii.eqb c)
    ["0"; "1"; "2"; "3"; "4"; "5"; "6"; "7"; "8"; "9"; "a"; "b"; "c"; "d"; "e"; "f"]%char.

Definition isVariant (c : ascii) : bool :=
  existsb (Ascii.eqb c) ["8"; "9"; "a"; "b"]%char.

Fixpoint hasShape (pattern s : string) : bool :=
  match pattern, s with
  | EmptyString, EmptyString => true
  | String p pattern, String c s =>
      (if Ascii.eqb p "x" then isHex c
       else if Ascii.eqb p "y" then isVariant c
       else Ascii.eqb p c) && hasShape pattern s
  | _, _ => false
  end.

Definition isUuidV4 (s : string) : bool :=
  hasShape "xxxxxxxx-xxxx-4xxx-yxxx-xxxxxxxxxxxx" s.

(** What [(Math.random() * 16) | 0] can give. *)
Definition digits (random : nat -> Z) : Prop := forall n, 0 <= random n < 16.

End Idempotency.

(** EXTRA-DEFS *)

(** * Properties *)

(** Opens a handler down to the field updates, and splits its cases. *)
Ltac unfold_handle :=
  unfold CreateAgent.handle, CreateAgent.resume, CreateAgent.timerCallback,
    CreateAgent.runAutoPreview, CreateAgent.runAutoPreview_catch,
    CreateAgent.runAutoPreview_token, CreateAgent.runAutoPreview_response,
    CreateAgent.sendTestMessage, CreateAgent.sendTestMessage_catch,
    CreateAgent.sendTestMessage_token, CreateAgent.sendTestMessage_response,
    CreateAgent.debounceCleanup, CreateAgent.clearPending, CreateAgent.setHash,
    CreateAgent.setToken, CreateAgent.setInput, CreateAgent.setMessages,
    CreateAgent.post, CreateAgent.clearTimeout in *.

Ltac handle_cases := repeat (case_match; cbn in *; try done).

(** ** Strings, sorting and message ids *)

Section Primitives.

(** An id made of a number alone never carries the preview mark. *)
Lemma showZ_not_preview (n : Z) : String.prefix "preview-" (Js.showZ n) = false.
Proof. unfold Js.showZ. destruct (Z.to_int n) as [[]|[]]; reflexivity. Qed.

Lemma trimStart_allSpace (s : string) : Js.allSpace s = true -> Js.trimStart s = "".
Proof.
  induction s as [|c s IH]; cbn; [done|].
  intros [-> Hs]%andb_true_iff. auto.
Qed.

Lemma trim_allSpace (s : string) : Js.allSpace s = true -> Js.trim s = "".
Proof. intros H. unfold Js.trim. by rewrite trimStart_allSpace. Qed.

Lemma trimEnd_empty (s : string) : Js.trimEnd s = "" -> Js.allSpace s = true.
Proof.
  induction s as [|c s IH]; cbn; [done|].
  destruct (Js.trimEnd s); [|done].
  destruct (Js.isSpace c); [auto|done].
Qed.

Lemma trimStart_suffix_allSpace (s : string) :
  Js.allSpace (Js.trimStart s) = true -> Js.allSpace s = true.
Proof.
  induction s as [|c s IH]; cbn; [done|].
  destruct (Js.isSpace c) eqn:Hc; cbn; [auto|]. by rewrite Hc.
Qed.

(** [trim] yields the empty string exactly on white space. *)
Lemma trim_empty_iff (s : string) : Js.trim s = "" <-> Js.allSpace s = true.
Proof.
  split; [|apply trim_allSpace].
  intros H. by apply trimStart_suffix_allSpace, trimEnd_empty.
Qed.

Lemma insertAsc_comm (x y : Z) (l : list Z) :
  Js.insertAsc x (Js.insertAsc y l) = Js.insertAsc y (Js.insertAsc x l).
Proof.
  induction l as [|z l IH]; cbn.
  - destruct (Z.leb_spec x y), (Z.leb_spec y x); try reflexivity; try lia.
    by replace y with x by lia.
  - destruct (Z.leb_spec y z), (Z.leb_spec x z); cbn;
      repeat match goal with
             | |- context [?a <=? ?b] => destruct (Z.leb_spec a b)
             end; try reflexivity; try lia.
    + by replace y with x by lia.
    + by rewrite IH.
Qed.

(** Sorting forgets the order in which the ids were selected. *)
Lemma sortAsc_Permutation (l1 l2 : list Z) :
  l1 ≡ₚ l2 -> Js.sortAsc l1 = Js.sortAsc l2.
Proof.
  induction 1 as [|x l1 l2 _ IH|x y l|l1 l2 l3 _ IH1 _ IH2]; cbn.
  - reflexivity.
  - unfold Js.sortAsc in IH. by rewrite IH.
  - apply insertAsc_comm.
  - congruence.
Qed.

Lemma insertAsc_Permutation (x : Z) (l : list Z) : Js.insertAsc x l ≡ₚ x :: l.
Proof.
  induction l as [|y l IH]; cbn; [done|].
  destruct (x <=? y); [done|]. rewrite IH. apply Permutation_swap.
Qed.

Lemma sortAsc_is_Permutation (l : list Z) : Js.sortAsc l ≡ₚ l.
Proof.
  induction l as [|x l IH]; cbn; [done|].
  rewrite insertAsc_Permutation. by f_equiv.
Qed.

Lemma insertAsc_Sorted (x : Z) (l : list Z) :
  Sorted Z.le l -> Sorted Z.le (Js.insertAsc x l).
Proof.
  induction 1 as [|y l Hl IH Hy]; cbn; [by repeat constructor|].
  destruct (Z.leb_spec x y).
  - by repeat constructor.
  - constructor; [done|].
    destruct Hy as [|z l' Hz]; cbn; [constructor; lia|].
    destruct (x <=? z); constructor; lia.
Qed.

(** [sortAsc] is the ascending sort. *)
Lemma sortAsc_Sorted (l : list Z) : Sorted Z.le (Js.sortAsc l).
Proof. induction l; cbn; [constructor|by apply insertAsc_Sorted]. Qed.

Lemma hasRealUser_app (l1 l2 : list Message) :
  hasRealUser (l1 ++ l2) = hasRealUser l1 || hasRealUser l2.
Proof. apply existsb_app. Qed.

End Primitives.

(** ** The session token *)

Section Token.
Import SessionToken.

Lemma usable_true (c : TokenCache) (now : Z) (tok : string) (e : Z) :
  sessionToken c = Some tok -> tok <> "" ->
  sessionTokenExpiry c = Some e -> e <> 0 -> e - 5000 > now ->
  usable c now = true.
Proof.
  intros Ht Hne He He0 Hgt. unfold usable, safetyWindow. rewrite Ht, He. cbn.
  destruct tok; [done|]. cbn.
  destruct (Z.eqb_spec e 0); [done|]. cbn. lia.
Qed.

Lemma usable_inv (c : TokenCache) (now : Z) :
  usable c now = true ->
  exists tok e, sessionToken c = Some tok /\ tok <> "" /\
                sessionTokenExpiry c = Some e /\ e <> 0 /\ e - 5000 > now.
Proof.
  unfold usable, safetyWindow.
  destruct (sessionToken c) as [[|a tok]|], (sessionTokenExpiry c) as [e|]; cbn; try done.
  destruct (Z.eqb_spec e 0); cbn; [done|]. intros H.
  eexists _, e. repeat split; try done. lia.
Qed.

(** Inside the window the cached token comes back and nobody is called. *)
Lemma finish_cached (c : TokenCache) (aid now : Z) (issuer : Issuer) (tok : string) (e : Z) :
  sessionToken c = Some tok -> tok <> "" ->
  sessionTokenExpiry c = Some e -> e <> 0 -> e - 5000 > now ->
  finish c (start aid c now) issuer =
    {| returned := Some tok; issuerCalls := []; cacheAfter := c |}.
Proof.
  intros Ht ? He ? ?. unfold start.
  rewrite (usable_true c now tok e) by done. cbn. by rewrite Ht.
Qed.

(** Outside of it the issuer is called once. *)
Lemma finish_issue (c : TokenCache) (aid now : Z) (issuer : Issuer) :
  usable c now = false ->
  finish c (start aid c now) issuer =
    match issuer with
    | Grants tok expires_in answeredAt =>
        {| returned := Some tok; issuerCalls := [aid];
           cacheAfter := {| sessionToken := Some tok;
                            sessionTokenExpiry := Some (answeredAt + expires_in * 1000) |} |}
    | Rejects => {| returned := None; issuerCalls := [aid]; cacheAfter := c |}
    end.
Proof. intros H. unfold start. rewrite H. by destruct issuer. Qed.

End Token.

Section TokenContract.
Import SessionToken.

(** Any operation made of a guard, [start] and [finish] keeps the contract. *)
Lemma guarded_start_contract (readyB : bool) (aid : Z) :
  tokenContract readyB aid
    (fun cache now issuer =>
       finish cache (if readyB then start aid cache now else NotReady) issuer).
Proof.
  intros cache now issuer out inWindow. subst out inWindow.
  split; [by intros ->|]. intros ->. split.
  - intros tok e ?????. by eapply finish_cached.
  - intros Hout.
    assert (usable cache now = false) as Hu.
    { destruct (usable cache now) eqn:E; [|done].
      destruct Hout. apply usable_inv in E as (tok & e & ?). by exists tok, e. }
    rewrite (finish_issue _ _ _ _ Hu). destruct issuer as [tok ein at'|]; [|done].
    split; [done|]. intros now2 issuer2 ???. cbn. by eapply finish_cached.
Qed.

End TokenContract.

(** C3, as the code has it: with the agent loaded, a cached token that is
    not empty, whose expiry is not zero and lies more than 5000 ms after the
    current time is returned unchanged with no call to the issuer (so a second
    call inside the window of a token just issued makes no call); otherwise the
    issuer is called exactly once and, when it grants a token, the cache
    holds that token with expiry (time of the answer) + expires_in*1000 and
    the token is returned, while a rejection leaves the cache as it was and
    the call fails. With the agent not loaded the call fails at once: no
    issuer call, no change of the cache. This holds for the builder and for
    the test chat page. *)
Theorem ensure_token_contract :
  (forall cl : CreateAgent.Closure,
      tokenContract (Run.ready cl) (default 0 (CreateAgent.cl_agentId cl))
        (fun cache now issuer =>
           CreateAgent.ensureAgentSessionToken_call
             {| CreateAgent.cl_agentId := CreateAgent.cl_agentId cl;
                CreateAgent.cl_createdAgent := CreateAgent.cl_createdAgent cl;
                CreateAgent.cl_config := CreateAgent.cl_config cl;
                CreateAgent.cl_token := cache |} now issuer)) /\
  (forall s : AgentChatPage.State,
      tokenContract (negb (Js.isNull (AgentChatPage.agent s))) (AgentChatPage.agentId s)
        (fun cache now issuer =>
           AgentChatPage.ensureAgentSessionToken_call
             {| AgentChatPage.agentId := AgentChatPage.agentId s;
                AgentChatPage.agent := AgentChatPage.agent s;
                AgentChatPage.token := cache |} now issuer)).
Proof.
  split.
  - intros cl.
    pose proof (guarded_start_contract (Run.ready cl)
                  (default 0 (CreateAgent.cl_agentId cl))) as H.
    intros cache now issuer. specialize (H cache now issuer).
    unfold CreateAgent.ensureAgentSessionToken_call, CreateAgent.ensureAgentSessionToken,
      Run.ready in *. cbn in *.
    destruct (CreateAgent.cl_agentId cl) as [aid|], (CreateAgent.cl_createdAgent cl);
      cbn in *; try exact H.
    all: destruct (aid =? 0); exact H.
  - intros s.
    pose proof (guarded_start_contract (negb (Js.isNull (AgentChatPage.agent s)))
                  (AgentChatPage.agentId s)) as H.
    intros cache now issuer. specialize (H cache now issuer).
    unfold AgentChatPage.ensureAgentSessionToken_call,
      AgentChatPage.ensureAgentSessionToken in *. cbn in *.
    destruct (AgentChatPage.agent s); exact H.
Qed.

(** Inside the window of a cached token the builder returns it and calls
    nobody. *)
Lemma ensure_token_contract_witness :
  let cl := {| CreateAgent.cl_agentId := Some 42;
               CreateAgent.cl_createdAgent := Some {| agent_id := 42; public_id := "pub" |};
               CreateAgent.cl_config := CreateAgent.initialConfig;
               CreateAgent.cl_token := {| sessionToken := Some "tok";
                                          sessionTokenExpiry := Some 3602000 |} |} in
  CreateAgent.ensureAgentSessionToken_call cl 2000 SessionToken.Rejects =
    {| SessionToken.returned := Some "tok"; SessionToken.issuerCalls := [];
       SessionToken.cacheAfter := CreateAgent.cl_token cl |}.
Proof.
  intros cl.
  destruct ensure_token_contract as [H _].
  destruct (H cl (CreateAgent.cl_token cl) 2000 SessionToken.Rejects) as [_ Hready].
  destruct (Hready eq_refl) as [Hcached _].
  apply (Hcached "tok" 3602000); [reflexivity|discriminate|reflexivity|lia|lia].
Defined.

(** C3, as stated, fails twice. With the agent not loaded and nothing
    cached the claim asks for one issuer call and the new token, the code
    throws without calling. With the agent loaded and the empty string
    cached far from its expiry the claim asks for the cached value and no
    call, the code calls the issuer. *)
Lemma ensure_token_counterexample :
  (let cl := CreateAgent.closureOf CreateAgent.initial in
   let out := CreateAgent.ensureAgentSessionToken_call cl 1000
                (SessionToken.Grants "t1" 3600 1001) in
   sessionToken (CreateAgent.cl_token cl) = None /\
   ~ (length (SessionToken.issuerCalls out) = 1%nat /\
      SessionToken.returned out = Some "t1")) /\
  (let cl := {| CreateAgent.cl_agentId := Some 42;
                CreateAgent.cl_createdAgent := Some {| agent_id := 42; public_id := "pub" |};
                CreateAgent.cl_config := CreateAgent.initialConfig;
                CreateAgent.cl_token := {| sessionToken := Some "";
                                           sessionTokenExpiry := Some 10000000 |} |} in
   let out := CreateAgent.ensureAgentSessionToken_call cl 1000
                (SessionToken.Grants "t1" 3600 1001) in
   10000000 - 5000 > 1000 /\
   ~ (SessionToken.issuerCalls out = [] /\ SessionToken.returned out = Some "")).
Proof.
  split; cbn.
  - split; [reflexivity|]. intros [H _]. discriminate H.
  - split; [lia|]. intros [H _]. discriminate H.
Qed.

(** C8: when the public identifier of the active agent changes, the test
    chat page clears the cached token and its expiry, whatever they were. *)
Theorem agent_switch_clears_token (s : AgentChatPage.State) (a : option Agent) :
  AgentChatPage.publicIdOf a <> AgentChatPage.publicIdOf (AgentChatPage.agent s) ->
  let s' := AgentChatPage.agentChanges a s in
  sessionToken (AgentChatPage.token s') = None /\
  sessionTokenExpiry (AgentChatPage.token s') = None /\
  AgentChatPage.agent s' = a.
Proof.
  intros Hne. unfold AgentChatPage.agentChanges.
  destruct (decide _) as [Heq|_]; [by destruct Hne|done].
Qed.

(** A token far from its expiry is dropped when another agent is loaded. *)
Lemma agent_switch_clears_token_witness :
  let s := {| AgentChatPage.agentId := 7;
              AgentChatPage.agent := Some {| agent_id := 7; public_id := "pub-7" |};
              AgentChatPage.token := {| sessionToken := Some "tok";
                                        sessionTokenExpiry := Some 9000000 |} |} in
  let s' := AgentChatPage.agentChanges (Some {| agent_id := 8; public_id := "pub-8" |}) s in
  SessionToken.usable (AgentChatPage.token s) 1000 = true /\
  sessionToken (AgentChatPage.token s') = None /\
  sessionTokenExpiry (AgentChatPage.token s') = None.
Proof.
  intros s s'. split; [reflexivity|].
  destruct (agent_switch_clears_token s (Some {| agent_id := 8; public_id := "pub-8" |}))
    as (H1 & H2 & _); [discriminate|]. by split.
Defined.

(** ** The builder: what the effects leave alone *)

Section Frame.
Import CreateAgent Run.

Lemma requests_app (l1 l2 : list Action) :
  requests (l1 ++ l2) = requests l1 ++ requests l2.
Proof. apply omap_app. Qed.

Lemma actionsOf_app (s s' : State) (acts : list Action) :
  trace s' = trace s ++ acts -> actionsOf s s' = acts.
Proof. unfold actionsOf. intros ->. by rewrite drop_app_length. Qed.

Lemma actionsOf_refl (s : State) : actionsOf s s = [].
Proof. apply actionsOf_app. by rewrite app_nil_r. Qed.

Lemma sameData_refl (s : State) : sameData s s.
Proof. by repeat split. Qed.

Lemma sameData_trans (s1 s2 s3 : State) :
  sameData s1 s2 -> sameData s2 s3 -> sameData s1 s3.
Proof. unfold sameData. intros ? ?. destruct_and!. repeat split; congruence. Qed.

Lemma extends_same (p : Action -> bool) (s s' : State) :
  trace s' = trace s -> extends p s s'.
Proof. intros E. exists []. by rewrite app_nil_r. Qed.

Lemma extends_refl (p : Action -> bool) (s : State) : extends p s s.
Proof. by apply extends_same. Qed.

Lemma extends_trans (p : Action -> bool) (s1 s2 s3 : State) :
  extends p s1 s2 -> extends p s2 s3 -> extends p s1 s3.
Proof.
  intros (a1 & E1 & H1) (a2 & E2 & H2). exists (a1 ++ a2).
  rewrite E2, E1, <- app_assoc, forallb_app, H1, H2. done.
Qed.

Lemma extends_weaken (p q : Action -> bool) (s s' : State) :
  (forall a, p a = true -> q a = true) -> extends p s s' -> extends q s s'.
Proof.
  intros Hpq (acts & E & H). exists acts. split; [done|].
  apply forallb_forall. intros a Ha. apply Hpq.
  by eapply forallb_forall in H.
Qed.

Lemma extends_one (p : Action -> bool) (s s' : State) (a : Action) :
  trace s' = trace s ++ [a] -> p a = true -> extends p s s'.
Proof. intros E H. exists [a]. cbn. by rewrite H. Qed.

Ltac effect_cases :=
  repeat (case_match; cbn in *; subst; try done).

Lemma clearPending_data (b : bool) (s : State) : sameData s (clearPending b s).
Proof. unfold clearPending, clearTimeout. by effect_cases. Qed.

Lemma clearPending_extends (b : bool) (s : State) :
  extends isClearTimeout s (clearPending b s).
Proof.
  unfold clearPending, clearTimeout. effect_cases;
    first [apply extends_refl | by eapply extends_one].
Qed.

Lemma clearPending_ref (b : bool) (s : State) :
  messagesRef (clearPending b s) = messagesRef s /\
  hash (previewController (clearPending b s)) = hash (previewController s) /\
  cleanup (clearPending b s) = cleanup s /\
  messagesChanged (clearPending b s) = messagesChanged s /\
  depsChanged (clearPending b s) = depsChanged s /\
  nextTimer (clearPending b s) = nextTimer s.
Proof. unfold clearPending, clearTimeout. by effect_cases. Qed.

Lemma debounceCleanup_data (s : State) : sameData s (debounceCleanup s).
Proof.
  unfold debounceCleanup. destruct (cleanup s); [|apply sameData_refl].
  apply (sameData_trans _ _ _ (clearPending_data true s)). by repeat split.
Qed.

Lemma debounceCleanup_extends (s : State) :
  extends isClearTimeout s (debounceCleanup s).
Proof.
  unfold debounceCleanup. destruct (cleanup s); [|by apply extends_same].
  apply (extends_trans _ _ _ _ (clearPending_extends true s)). by apply extends_same.
Qed.

Lemma debounceCleanup_ref (s : State) :
  messagesRef (debounceCleanup s) = messagesRef s /\
  hash (previewController (debounceCleanup s)) = hash (previewController s) /\
  nextTimer (debounceCleanup s) = nextTimer s.
Proof.
  unfold debounceCleanup. destruct (cleanup s); [|done].
  destruct (clearPending_ref true s) as (? & ? & ? & ? & ? & ?). by repeat split.
Qed.

Lemma debounceBody_data (now : Z) (s : State) : sameData s (debounceBody now s).
Proof.
  unfold debounceBody, setHash, setTimeout.
  repeat case_match; try apply sameData_refl.
  - apply (sameData_trans _ _ _ (clearPending_data true s)). by repeat split.
  - by repeat split.
  - apply (sameData_trans _ _ _ (clearPending_data false s)). by repeat split.
Qed.

Lemma debounceBody_extends (now : Z) (s : State) :
  extends isTimerAction s (debounceBody now s).
Proof.
  unfold debounceBody, setHash, setTimeout.
  pose proof (fun b => extends_weaken isClearTimeout isTimerAction s _
                (fun a => ltac:(by destruct a)) (clearPending_extends b s)) as Hc.
  repeat case_match; try by apply extends_same.
  - apply (extends_trans _ _ _ _ (Hc true)). by apply extends_same.
  - apply (extends_trans _ _ _ _ (Hc false)). by eapply extends_one.
Qed.

Lemma debounceBody_ref (now : Z) (s : State) :
  messagesRef (debounceBody now s) = messagesRef s.
Proof.
  unfold debounceBody, setHash, setTimeout.
  repeat case_match; try done; cbn; by destruct (clearPending_ref true s) as (? & ?),
    (clearPending_ref false s) as (? & ?).
Qed.

(** With the user's own message in the ref the effect never arms. *)
Lemma debounceBody_real_user (now : Z) (s : State) :
  hasRealUser (messagesRef s) = true ->
  extends isClearTimeout s (debounceBody now s).
Proof.
  intros Hu. unfold debounceBody, setHash. rewrite Hu.
  case_match; [|by apply extends_same].
  apply (extends_trans _ _ _ _ (clearPending_extends true s)). by apply extends_same.
Qed.

Lemma debounceEffect_data (now : Z) (s : State) : sameData s (debounceEffect now s).
Proof.
  eapply sameData_trans; [apply debounceCleanup_data|apply debounceBody_data].
Qed.

Lemma debounceEffect_extends (now : Z) (s : State) :
  extends isTimerAction s (debounceEffect now s).
Proof.
  eapply extends_trans; [|apply debounceBody_extends].
  eapply extends_weaken; [|apply debounceCleanup_extends]. by intros [].
Qed.

Lemma debounceEffect_ref (now : Z) (s : State) :
  messagesRef (debounceEffect now s) = messagesRef s.
Proof.
  unfold debounceEffect. rewrite debounceBody_ref.
  by destruct (debounceCleanup_ref s) as (? & ?).
Qed.

Lemma debounceEffect_real_user (now : Z) (s : State) :
  hasRealUser (messagesRef s) = true ->
  extends isClearTimeout s (debounceEffect now s).
Proof.
  intros Hu. eapply extends_trans; [apply debounceCleanup_extends|].
  apply debounceBody_real_user.
  by destruct (debounceCleanup_ref s) as (-> & ?).
Qed.

Lemma cancelOnRealUser_data (s : State) : sameData s (cancelOnRealUser s).
Proof.
  unfold cancelOnRealUser. case_match; [apply clearPending_data|apply sameData_refl].
Qed.

Lemma cancelOnRealUser_extends (s : State) :
  extends isClearTimeout s (cancelOnRealUser s).
Proof.
  unfold cancelOnRealUser. case_match; [apply clearPending_extends|by apply extends_same].
Qed.

Lemma cancelOnRealUser_ref (s : State) :
  messagesRef (cancelOnRealUser s) = messagesRef s.
Proof.
  unfold cancelOnRealUser. case_match; [|done].
  by destruct (clearPending_ref true s) as (? & ?).
Qed.

Lemma with_flags_data (m d : bool) (s : State) : sameData s (with_flags m d s).
Proof. by repeat split. Qed.

Lemma syncMessagesRef_data (s : State) : sameData s (syncMessagesRef s).
Proof. by repeat split. Qed.

Lemma with_flags_extends (p : Action -> bool) (m d : bool) (s : State) :
  extends p s (with_flags m d s).
Proof. by apply extends_same. Qed.

(** The commit writes neither React state nor requests. *)
Lemma commit_data (now : Z) (s : State) : sameData s (commit now s).
Proof.
  unfold commit. destruct (mounted s); [|apply sameData_refl].
  destruct (messagesChanged s), (depsChanged s);
    repeat (eapply sameData_trans;
            [|first [apply with_flags_data | apply debounceEffect_data
                    | apply cancelOnRealUser_data | apply syncMessagesRef_data]]);
    apply sameData_refl.
Qed.

Lemma commit_extends (now : Z) (s : State) :
  extends isTimerAction s (commit now s).
Proof.
  assert (forall s', extends isTimerAction s' (cancelOnRealUser s')) as Hc.
  { intros s'. eapply extends_weaken; [|apply cancelOnRealUser_extends]. by intros []. }
  unfold commit. destruct (mounted s); [|apply extends_refl].
  destruct (messagesChanged s), (depsChanged s).
  all: eapply extends_trans; [|apply with_flags_extends].
  all: repeat (eapply extends_trans; [|first [apply debounceEffect_extends | apply Hc]]).
  all: by apply extends_same.
Qed.

(** After the commit the ref mirrors the messages that were set. *)
Lemma commit_ref (now : Z) (s : State) :
  messagesRef (commit now s) =
    if mounted s && messagesChanged s then messages s else messagesRef s.
Proof.
  unfold commit. destruct (mounted s); [|done]. cbn.
  destruct (depsChanged s), (messagesChanged s); cbn;
    rewrite ?debounceEffect_ref, ?cancelOnRealUser_ref; done.
Qed.

Lemma commit_flags (now : Z) (s : State) :
  mounted s = true ->
  messagesChanged (commit now s) = false /\ depsChanged (commit now s) = false.
Proof. unfold commit. by intros ->. Qed.

Lemma commit_unmounted (now : Z) (s : State) :
  mounted s = false -> commit now s = s.
Proof. unfold commit. by intros ->. Qed.

(** With the user's own message in the log the commit arms nothing. *)
Lemma commit_real_user (now : Z) (s : State) :
  hasRealUser (messages s) = true ->
  messagesChanged s = true \/ messagesRef s = messages s ->
  extends isClearTimeout s (commit now s).
Proof.
  intros Hu Hsync. unfold commit. destruct (mounted s); [|by apply extends_same].
  eapply extends_trans; [|apply with_flags_extends].
  destruct (messagesChanged s) eqn:Hm.
  - assert (extends isClearTimeout s (cancelOnRealUser (syncMessagesRef s))) as H1.
    { eapply extends_trans; [|apply cancelOnRealUser_extends]. by apply extends_same. }
    destruct (depsChanged s); [|done].
    eapply extends_trans; [exact H1|]. apply debounceEffect_real_user.
    by rewrite cancelOnRealUser_ref.
  - destruct Hsync as [?|Hs]; [done|].
    destruct (depsChanged s); [|apply extends_refl].
    apply debounceEffect_real_user. by rewrite Hs.
Qed.

Lemma step_unfold (now : Z) (s : State) (ev : Event) :
  step now s ev = commit now (handle now ev s).
Proof. reflexivity. Qed.

End Frame.

(** ** The builder: what the handlers do *)

Section Handlers.
Import CreateAgent Run.

(** Handlers never write the ref: only the commit does. *)
Lemma handle_ref (now : Z) (ev : Event) (s : State) :
  messagesRef (handle now ev s) = messagesRef s.
Proof. destruct ev; unfold_handle; cbn; handle_cases. Qed.

Lemma handle_messages_flag (now : Z) (ev : Event) (s : State) :
  messages (handle now ev s) = messages s \/
  (mounted (handle now ev s) = true /\ messagesChanged (handle now ev s) = true).
Proof. destruct ev; unfold_handle; cbn; handle_cases; auto. Qed.

Lemma handle_unmounted (now : Z) (ev : Event) (s : State) :
  mounted (handle now ev s) = false ->
  messages (handle now ev s) = messages s /\
  messagesChanged (handle now ev s) = messagesChanged s /\
  depsChanged (handle now ev s) = depsChanged s.
Proof. destruct ev; unfold_handle; cbn; handle_cases; intros; congruence. Qed.

(** Handlers never call [setTimeout]: only the debounce effect does. *)
Lemma handle_no_arming (now : Z) (ev : Event) (s : State) :
  extends notSetTimeout s (handle now ev s).
Proof.
  destruct ev; unfold_handle; cbn; handle_cases;
    first [ by apply extends_same
          | by eapply extends_one
          | by (eexists [_; _]; split; [cbn; by rewrite <- app_assoc|]) ].
Qed.

(** Between two events the state stays committed. *)
Lemma step_committed (now : Z) (ev : Event) (s : State) :
  committed s -> committed (step now s ev).
Proof.
  intros (Hr & Hm & Hd). unfold step.
  set (h := handle now ev s).
  pose proof (handle_ref now ev s) as Href.
  pose proof (handle_messages_flag now ev s) as Hflag.
  pose proof (handle_unmounted now ev s) as Hun.
  pose proof (commit_data now h) as (_ & _ & _ & _ & _ & Hmsg & _).
  fold h in Href, Hflag, Hun. unfold committed. rewrite Hmsg, commit_ref.
  destruct (mounted h) eqn:Hmount.
  - destruct (commit_flags now h Hmount) as [-> ->]. split; [|done]. cbn.
    destruct (messagesChanged h); [done|].
    destruct Hflag as [->|[_ ?]]; [congruence|done].
  - rewrite (commit_unmounted now h Hmount).
    destruct (Hun eq_refl) as (-> & -> & ->). cbn. by rewrite Href.
Qed.

Lemma run_committed (evs : list (Z * Event)) (s : State) :
  committed s -> committed (run s evs).
Proof.
  revert s. induction evs as [|[now ev] evs IH]; intros s Hs; [done|].
  cbn. apply IH. by apply step_committed.
Qed.

Lemma initial_committed : committed initial.
Proof. done. Qed.

Lemma test_messages_unmarked (now : Z) (text : string) (r : option string) :
  isPreviewId (testUserMessage now text) = false /\
  isPreviewId (testAssistantMessage now r) = false /\
  isPreviewId (testErrorMessage now) = false.
Proof. unfold isPreviewId. cbn. by rewrite !showZ_not_preview. Qed.

Lemma noNewRound_maps (s s' : State) :
  (forall rid started a c,
      inflight s' !! rid = Some (AwaitToken (AutoPreview started a c)) ->
      inflight s !! rid = Some (AwaitToken (AutoPreview started a c))) ->
  noNewRound s s'.
Proof. done. Qed.

Ltac solve_messages :=
  first
    [ by (exists []; rewrite app_nil_r)
    | eexists; split; [rewrite <- ?app_assoc; reflexivity|];
      cbn [forallb app];
      repeat match goal with
             | |- context [isPreviewId (testUserMessage ?n ?t)] =>
                 rewrite (proj1 (test_messages_unmarked n t None))
             | |- context [isPreviewId (testAssistantMessage ?n ?r)] =>
                 rewrite (proj1 (proj2 (test_messages_unmarked n "" r)))
             | |- context [isPreviewId (testErrorMessage ?n)] =>
                 rewrite (proj2 (proj2 (test_messages_unmarked n "" None)))
             end; done ].

Ltac solve_rounds :=
  apply noNewRound_maps; cbn; intros ????;
  rewrite ?lookup_insert_Some, ?lookup_delete_Some; intuition congruence.

Ltac solve_trace :=
  first
    [ exists []; split; [by rewrite app_nil_r|]; split; [done|]; cbn; by constructor
    | eexists; split; [rewrite <- ?app_assoc; reflexivity|];
      split; [done|]; cbn; repeat constructor;
      unfold fromWaitingRound; eauto 10 ].

(** Once the user's own message is in the ref, no handler starts a round
    or writes a preview message. *)
Lemma handle_real_user (now : Z) (ev : Event) (s : State) :
  hasRealUser (messagesRef s) = true -> afterRealUser s (handle now ev s).
Proof.
  intros Hu. unfold afterRealUser.
  destruct ev; unfold_handle; unfold hasRealUser in *; cbn in *;
    handle_cases; try congruence.
  all: split; [solve_messages|split; [solve_rounds|solve_trace]].
Qed.

End Handlers.

(** ** The builder: once the user has written *)

Section RealUser.
Import CreateAgent Run.

Lemma previewRequests_app (l1 l2 : list Action) :
  previewRequests (l1 ++ l2) = previewRequests l1 ++ previewRequests l2.
Proof. unfold previewRequests. by rewrite requests_app, List.filter_app. Qed.

Lemma fromWaitingRound_mono (s s' : State) (r : Request) :
  noNewRound s s' -> fromWaitingRound s' r -> fromWaitingRound s r.
Proof.
  intros Hn (rid & started & a & c & tok & Hl & ->).
  exists rid, started, a, c, tok. split; [by apply Hn|done].
Qed.

Lemma afterRealUser_trans (s1 s2 s3 : State) :
  afterRealUser s1 s2 -> afterRealUser s2 s3 -> afterRealUser s1 s3.
Proof.
  intros ((x1 & M1 & P1) & N1 & a1 & T1 & A1 & R1)
         ((x2 & M2 & P2) & N2 & a2 & T2 & A2 & R2).
  split; [|split].
  - exists (x1 ++ x2). rewrite M2, M1, <- app_assoc, forallb_app, P1, P2. done.
  - intros rid started a c H. by apply N1, N2.
  - exists (a1 ++ a2). rewrite T2, T1, <- app_assoc, forallb_app, A1, A2.
    repeat split. rewrite previewRequests_app. apply Forall_app. split; [done|].
    eapply Forall_impl; [exact R2|]. intros r. by apply fromWaitingRound_mono.
Qed.

(** An effect that only clears timers is harmless in this sense. *)
Lemma afterRealUser_effect (s s' : State) :
  sameData s s' -> extends isClearTimeout s s' -> afterRealUser s s'.
Proof.
  intros (_ & _ & _ & _ & _ & Hm & _ & _ & Hi & _) (acts & Ht & Hc).
  split; [|split].
  - exists []. by rewrite app_nil_r.
  - intros rid started a c. by rewrite Hi.
  - exists acts. split; [done|].
    assert (forall a, In a acts -> isClearTimeout a = true) as Hall
        by by apply forallb_forall.
    split.
    + apply forallb_forall. intros a Ha. apply Hall in Ha. by destruct a.
    + assert (previewRequests acts = []) as ->; [|constructor].
      clear Ht Hc. induction acts as [|a acts IH]; [done|].
      assert (isClearTimeout a = true) by (apply Hall; by left).
      destruct a; try done. apply IH. intros b Hb. apply Hall. by right.
Qed.

Lemma afterRealUser_real (s s' : State) :
  afterRealUser s s' -> hasRealUser (messages s) = true ->
  hasRealUser (messages s') = true.
Proof. intros ((x & -> & _) & _) Hu. by rewrite hasRealUser_app, Hu. Qed.

Lemma step_real_user (now : Z) (ev : Event) (s : State) :
  committed s -> hasRealUser (messages s) = true ->
  afterRealUser s (step now s ev).
Proof.
  intros (Hr & Hm & Hd) Hu. unfold step.
  pose proof (handle_ref now ev s) as Href.
  assert (afterRealUser s (handle now ev s)) as Hh.
  { apply handle_real_user. by rewrite Hr. }
  eapply afterRealUser_trans; [exact Hh|].
  apply afterRealUser_effect; [apply commit_data|].
  apply commit_real_user; [by eapply afterRealUser_real|].
  destruct (handle_messages_flag now ev s) as [E|[_ ?]]; [|by left].
  right. congruence.
Qed.

Lemma afterRealUser_refl (s : State) : afterRealUser s s.
Proof. apply afterRealUser_effect; [apply sameData_refl|apply extends_refl]. Qed.

Lemma run_real_user (evs : list (Z * Event)) (s : State) :
  committed s -> hasRealUser (messages s) = true ->
  afterRealUser s (run s evs).
Proof.
  revert s. induction evs as [|[now ev] evs IH]; intros s Hc Hu; cbn.
  - apply afterRealUser_refl.
  - pose proof (step_real_user now ev s Hc Hu) as Hs.
    eapply afterRealUser_trans; [exact Hs|]. apply IH.
    + by apply step_committed.
    + by eapply afterRealUser_real.
Qed.

End RealUser.

Section Suspension.
Import CreateAgent Run.

Lemma no_armings (acts : list Action) :
  forallb notSetTimeout acts = true -> armings acts = [].
Proof.
  induction acts as [|a acts IH]; [done|]. cbn.
  intros [Ha Hr]%andb_true_iff. unfold notSetTimeout in Ha.
  destruct (isSetTimeout a); [done|]. by apply IH.
Qed.

(** C1, as the code has it: once the log holds a message of the user that
    is not a preview message, however the configuration changes and
    whatever else happens, the log keeps that message, no timer is armed,
    nothing with the preview mark is added to the log and no preview
    round is started; the only preview requests still sent are those of
    rounds that were already waiting for their session token, so that
    none is sent when no round was waiting. *)
Theorem real_user_suspends_preview (s : State) (evs : list (Z * Event)) :
  committed s -> hasRealUser (messages s) = true ->
  let s' := run s evs in
  let acts := actionsOf s s' in
  hasRealUser (messages s') = true /\
  (exists extra, messages s' = messages s ++ extra /\
                 forallb (fun m => negb (isPreviewId m)) extra = true) /\
  armings acts = [] /\
  noNewRound s s' /\
  Forall (fromWaitingRound s) (previewRequests acts) /\
  ((forall rid started a c,
       inflight s !! rid <> Some (AwaitToken (AutoPreview started a c))) ->
   previewRequests acts = []).
Proof.
  intros Hc Hu s' acts.
  pose proof (run_real_user evs s Hc Hu) as Hrun.
  pose proof (afterRealUser_real _ _ Hrun Hu) as Hu'.
  destruct Hrun as (Hmsg & Hn & a & Ht & Ha & Hp).
  assert (acts = a) as -> by by apply actionsOf_app.
  repeat split; try done.
  - by apply no_armings.
  - intros Hnone. destruct (previewRequests a) as [|r rest]; [done|].
    apply Forall_inv in Hp as (rid & started & ag & c & tok & Hl & _).
    by destruct (Hnone rid started ag c).
Qed.

(** After the user wrote "hi", a change of persona, the old timer and a
    token answer arm nothing and send no preview. *)
Lemma real_user_suspends_preview_witness :
  let s := run configuring [(1100, SetInput "hi"); (1200, SendTestMessage "x")] in
  let c := {| domainEnabled := true; selectedPersona := "sales_rep";
              selectedDocs := [3; 1]; webSearchEnabled := false;
              siteWhitelist := ""; groundingMode := blended; expertiseLevel := 7;
              additionalContext := ""; personaOverrides := ""; domain := saas |} in
  let evs := [(1300, SetConfig c); (2200, TimerFires 1);
              (2300, Settles 1 (TokenOk "tok" 3600))] in
  hasRealUser (messages (run s evs)) = true /\
  armings (actionsOf s (run s evs)) = [].
Proof.
  intros s c evs.
  assert (committed s) as Hc by (vm_compute; done).
  assert (hasRealUser (messages s) = true) as Hu by (vm_compute; reflexivity).
  destruct (real_user_suspends_preview s evs Hc Hu) as (Hr & _ & Ha & _).
  split; [exact Hr|exact Ha].
Defined.

(** C1, as stated, fails: the timer fires at 1800 and the round asks for
    a session token; the user writes "hello" at 1950; the token arrives at
    2000 and the round sends its preview request although the log holds the
    user's message. *)
Lemma real_user_preview_request_counterexample :
  let s := run configuring [(1800, TimerFires 1); (1900, SetInput "hello");
                            (1950, SendTestMessage "abc")] in
  let s' := step 2000 s (Settles 1 (TokenOk "tok" 3600)) in
  committed s /\ hasRealUser (messages s) = true /\
  previewRequests (actionsOf s s') = [previewChat agent42 "tok" initialConfig] /\
  previewRequests (actionsOf s s') <> [].
Proof.
  intros s s'. split; [vm_compute; done|]. split; [vm_compute; reflexivity|].
  assert (previewRequests (actionsOf s s') = [previewChat agent42 "tok" initialConfig])
    as -> by (vm_compute; reflexivity).
  done.
Qed.

End Suspension.

(** ** The builder: single steps *)

Section Steps.
Import CreateAgent Run.


Lemma step_messages (now : Z) (ev : Event) (s : State) :
  messages (step now s ev) = messages (handle now ev s).
Proof. unfold step. by destruct (commit_data now (handle now ev s)) as (_&_&_&_&_&?&_). Qed.

Lemma step_inflight (now : Z) (ev : Event) (s : State) :
  inflight (step now s ev) = inflight (handle now ev s).
Proof.
  unfold step.
  by destruct (commit_data now (handle now ev s)) as (_&_&_&_&_&_&_&_&?&_).
Qed.



End Steps.

(** ** The builder: preview messages and discarded answers *)

Section PreviewRound.
Import CreateAgent Run.

Local Arguments hasRealUser : simpl never.

Lemma preview_messages_marked (now : Z) (c : Config) (r : option string) :
  isPreviewId (previewUserMessage now c) = true /\
  isPreviewId (previewAssistantMessage now r) = true /\
  isPreviewId (previewErrorMessage now) = true.
Proof. by repeat split. Qed.

Lemma isRealUser_marked (m : Message) : isPreviewId m = true -> isRealUser m = false.
Proof. unfold isPreviewId, isRealUser. intros ->. apply andb_false_r. Qed.

(** The three logs a preview round writes. *)
Lemma preview_logs (started now : Z) (c : Config) (r : option string) :
  hasRealUser [previewUserMessage started c] = false /\
  hasRealUser [previewUserMessage started c; previewAssistantMessage now r] = false /\
  hasRealUser [previewUserMessage started c; previewErrorMessage now] = false.
Proof. by repeat split. Qed.

Lemma handle_preview_round (now : Z) (ev : Event) (s : State) :
  match ev with
  | TimerFires _ => True
  | Settles rid _ => exists k, inflight s !! rid = Some k /\ isPreviewTask k = true
  | _ => False
  end ->
  hasRealUser (messages s) = false ->
  hasRealUser (messages (handle now ev s)) = false.
Proof.
  intros Hev Hu. destruct ev; try done.
  - unfold_handle. cbn. handle_cases; first [done | apply preview_logs].
  - destruct Hev as (k & Hk & Hp). unfold handle. rewrite Hk.
    destruct k as [[]|[]]; try done; destruct r; unfold_handle; cbn;
      handle_cases; first [done | apply preview_logs].
Qed.

(** C9: the three messages of the automatic preview carry the preview
    mark, so a log written by a preview round shows no activity of the user,
    and neither a firing timer nor the answer to a request of a preview
    round makes a log without such activity show one. *)
Theorem preview_round_never_real_user :
  (forall now c r,
      String.prefix "preview-" (id (previewUserMessage now c)) = true /\
      String.prefix "preview-" (id (previewAssistantMessage now r)) = true /\
      String.prefix "preview-" (id (previewErrorMessage now)) = true) /\
  (forall started now c r,
      hasRealUser [previewUserMessage started c] = false /\
      hasRealUser [previewUserMessage started c; previewAssistantMessage now r] = false /\
      hasRealUser [previewUserMessage started c; previewErrorMessage now] = false) /\
  (forall s now tid,
      hasRealUser (messages s) = false ->
      hasRealUser (messages (step now s (TimerFires tid))) = false) /\
  (forall s now rid r k,
      inflight s !! rid = Some k -> isPreviewTask k = true ->
      hasRealUser (messages s) = false ->
      hasRealUser (messages (step now s (Settles rid r))) = false).
Proof.
  split; [intros now c r; apply (preview_messages_marked now c r)|].
  split; [intros started now c r; apply (preview_logs started now c r)|].
  split.
  - intros s now tid Hu. rewrite step_messages. by apply handle_preview_round.
  - intros s now rid r k Hk Hp Hu. rewrite step_messages.
    apply handle_preview_round; [|done]. by exists k.
Qed.

(** The timer of the configuring builder fires: the log is a preview
    prompt and shows no activity of the user. *)
Lemma preview_round_never_real_user_witness :
  hasRealUser (messages (step 1800 configuring (TimerFires 1))) = false /\
  length (messages (step 1800 configuring (TimerFires 1))) = 1%nat.
Proof.
  split; [|vm_compute; reflexivity].
  destruct preview_round_never_real_user as (_ & _ & H & _).
  apply H. vm_compute. reflexivity.
Defined.

(** C4: a preview request is in flight and the log holds a message of the
    user that is not a preview message; whatever happens until the answer
    arrives, the answer, good or bad, leaves the log as it is, sends
    nothing, and the round is over. *)
Theorem preview_response_discarded
    (s : State) (evs : list (Z * Event)) (rid : nat)
    (started : Z) (a : Agent) (c : Config) (r : Response) (now : Z) :
  committed s -> hasRealUser (messages s) = true ->
  let s1 := run s evs in
  inflight s1 !! rid = Some (AwaitChat (AutoPreview started a c)) ->
  let s2 := step now s1 (Settles rid r) in
  messages s2 = messages s1 /\
  requests (actionsOf s1 s2) = [] /\
  ((forall tok e, r <> TokenOk tok e) -> inflight s2 !! rid = None).
Proof.
  intros Hc Hu s1 Hin s2.
  assert (committed s1) as (Hr1 & Hm1 & Hd1) by by apply run_committed.
  assert (hasRealUser (messagesRef s1) = true) as Hu1.
  { rewrite Hr1. eapply afterRealUser_real; [by apply run_real_user|done]. }
  subst s2. rewrite step_messages, step_inflight.
  pose proof (commit_extends now (handle now (Settles rid r) s1)) as (acts & Ht & Ha).
  assert (requests acts = []) as Hacts.
  { clear Ht. induction acts as [|x acts IH]; [done|]. cbn in Ha.
    apply andb_true_iff in Ha as [Hx Ha]. destruct x; try done; by apply IH. }
  unfold actionsOf, step. rewrite Ht.
  unfold handle. rewrite Hin. unfold resume, runAutoPreview_response,
    runAutoPreview_catch.
  destruct r; cbn; rewrite ?Hu1; cbn; rewrite ?drop_app_length;
    repeat split; try done.
  - intros H. by destruct (H token0 expires_in).
  - intros _. apply lookup_delete_eq.
  - intros _. apply lookup_delete_eq.
Qed.

End PreviewRound.

Section DiscardWitness.
Import CreateAgent Run.

(** The preview of the configuring builder is in flight as request 2 when
    the user writes "hello"; the answer "Hi" does not reach the log. *)
Lemma preview_response_discarded_witness :
  let s := run configuring
             [(1800, TimerFires 1); (1850, Settles 1 (TokenOk "tok" 3600));
              (1900, SetInput "hello"); (1950, SendTestMessage "abc")] in
  let s1 := run s [(2000, SetCurrentStep 2)] in
  let s2 := step 2100 s1 (Settles 2 (ChatOk (Some "Hi"))) in
  messages s2 = messages s1 /\ length (messages s2) = 2%nat.
Proof.
  intros s s1 s2. split; [|vm_compute; reflexivity].
  apply (preview_response_discarded s [(2000, SetCurrentStep 2)] 2
           1800 agent42 initialConfig (ChatOk (Some "Hi")) 2100).
  - vm_compute. done.
  - vm_compute. reflexivity.
  - vm_compute. reflexivity.
Defined.

End DiscardWitness.

(** ** The builder: the configuration hash *)

Section Hash.
Import CreateAgent Run.

Lemma configHash_sameUpToDocOrder (c1 c2 : Config) :
  sameUpToDocOrder c1 c2 -> configHash c1 = configHash c2.
Proof.
  intros (H1 & H2 & H3 & H4 & H5 & H6 & H7 & H8 & H9 & H10).
  unfold configHash, docHash.
  by rewrite H1, H2, (sortAsc_Permutation _ _ H3), H4, H5, H6, H7, H8, H9, H10.
Qed.

(** The recorded hash is the hash of the configuration: the body of the
    effect arms nothing. *)
Lemma debounceBody_same_hash (now : Z) (s : State) :
  hash (previewController s) = configHash (config s) ->
  extends isClearTimeout s (debounceBody now s) /\
  nextTimer (debounceBody now s) = nextTimer s.
Proof.
  intros H. unfold debounceBody, setHash. rewrite H, String.eqb_refl.
  pose proof (clearPending_extends true s).
  destruct (clearPending_ref true s) as (_ & _ & _ & _ & _ & Hn).
  repeat case_match; split; try done; by apply extends_same.
Qed.

Lemma cancelOnRealUser_same_hash (s : State) :
  hash (previewController (cancelOnRealUser s)) = hash (previewController s) /\
  nextTimer (cancelOnRealUser s) = nextTimer s.
Proof.
  unfold cancelOnRealUser. case_match; [|done].
  by destruct (clearPending_ref true s) as (_ & ? & _ & _ & _ & ?).
Qed.

Lemma commit_same_hash (now : Z) (s : State) :
  hash (previewController s) = configHash (config s) ->
  extends isClearTimeout s (commit now s) /\ nextTimer (commit now s) = nextTimer s.
Proof.
  intros H. unfold commit. destruct (mounted s); [|split; [apply extends_refl|done]].
  set (s1 := if messagesChanged s then _ else s).
  assert (extends isClearTimeout s s1 /\ nextTimer s1 = nextTimer s /\
          hash (previewController s1) = configHash (config s1)) as (E1 & N1 & H1).
  { subst s1. destruct (messagesChanged s); [|by repeat split; try apply extends_refl].
    destruct (cancelOnRealUser_same_hash (syncMessagesRef s)) as [Hh Hn].
    destruct (cancelOnRealUser_data (syncMessagesRef s)) as (_&_&_&_&Hc&_).
    split; [|split].
    - eapply extends_trans; [|apply cancelOnRealUser_extends]. by apply extends_same.
    - by rewrite Hn.
    - by rewrite Hh, Hc. }
  destruct (depsChanged s); cbn; [|by split].
  unfold debounceEffect.
  destruct (debounceCleanup_ref s1) as (_ & Hh & Hn).
  destruct (debounceCleanup_data s1) as (_&_&_&_&Hc&_).
  destruct (debounceBody_same_hash now (debounceCleanup s1)) as [E2 N2];
    [by rewrite Hh, Hc|].
  split; [|by rewrite N2, Hn].
  eapply extends_trans; [exact E1|].
  eapply extends_trans; [apply debounceCleanup_extends|exact E2].
Qed.

Lemma timer_actions_no_requests (p : Action -> bool) (acts : list Action) :
  (forall a, p a = true -> isTimerAction a = true) ->
  forallb p acts = true -> requests acts = [].
Proof.
  intros Hp. induction acts as [|x acts IH]; [done|]. cbn.
  intros [Hx Ha]%andb_true_iff. apply Hp in Hx. destruct x; try done; by apply IH.
Qed.

(** Setting a configuration whose hash is the recorded one arms nothing
    and sends nothing. *)
Lemma setConfig_same_hash (s : State) (now : Z) (c : Config) :
  hash (previewController s) = configHash c ->
  let s' := step now s (SetConfig c) in
  armings (actionsOf s s') = [] /\ requests (actionsOf s s') = [] /\
  nextTimer s' = nextTimer s.
Proof.
  intros Hh s'. subst s'. unfold step, handle.
  destruct (mounted s) eqn:Hm.
  - destruct (commit_same_hash now
                (with_view (currentStep s) (agentId s) (createdAgent s) c s))
      as [(acts & Ht & Ha) Hn]; [done|].
    cbn in Ht. rewrite (actionsOf_app _ _ acts Ht).
    split; [|split; [|done]].
    + apply no_armings. apply forallb_forall. intros x Hx.
      eapply forallb_forall in Ha; [|done]. by destruct x.
    + eapply timer_actions_no_requests; [|exact Ha]. by intros [].
  - unfold commit. rewrite Hm. by rewrite actionsOf_refl.
Qed.

(** C7: two snapshots that agree on every field and select the same
    documents in some order have the same hash; and setting a snapshot
    whose hash is the recorded one calls [setTimeout] not once, from any
    state of the builder. *)
Theorem config_hash_order_insensitive (c1 c2 : Config) :
  sameUpToDocOrder c1 c2 ->
  configHash c1 = configHash c2 /\
  forall (s : State) (now : Z),
    hash (previewController s) = configHash c1 ->
    let s' := step now s (SetConfig c2) in
    armings (actionsOf s s') = [] /\ nextTimer s' = nextTimer s.
Proof.
  intros Hsame. pose proof (configHash_sameUpToDocOrder c1 c2 Hsame) as Heq.
  split; [done|]. intros s now Hh s'.
  destruct (setConfig_same_hash s now c2) as (H1 & _ & H2); [congruence|done].
Qed.

(** The preview for documents 1, 3 has run; selecting them as 3, 1 arms
    nothing. *)
Lemma config_hash_order_insensitive_witness :
  let c1 := {| domainEnabled := true; selectedPersona := "support_expert";
               selectedDocs := [1; 3]; webSearchEnabled := false;
               siteWhitelist := ""; groundingMode := blended; expertiseLevel := 7;
               additionalContext := ""; personaOverrides := ""; domain := saas |} in
  let c2 := {| domainEnabled := true; selectedPersona := "support_expert";
               selectedDocs := [3; 1]; webSearchEnabled := false;
               siteWhitelist := ""; groundingMode := blended; expertiseLevel := 7;
               additionalContext := ""; personaOverrides := ""; domain := saas |} in
  let s := run configuring [(1100, SetConfig c1); (1900, TimerFires 2)] in
  configHash c1 = configHash c2 /\
  armings (actionsOf s (step 2500 s (SetConfig c2))) = [].
Proof.
  intros c1 c2 s.
  assert (sameUpToDocOrder c1 c2) as Hsame.
  { repeat split. cbn. apply Permutation_swap. }
  destruct (config_hash_order_insensitive c1 c2 Hsame) as [Heq Hstep].
  split; [exact Heq|]. apply Hstep. vm_compute. reflexivity.
Defined.

End Hash.

(** ** The builder: the pending timer *)

Section Timers.
Import CreateAgent Run.

Lemma timerInv_empty (s : State) : timers s = ∅ -> timerInv s.
Proof. by left. Qed.

(** Clearing what the controller holds clears all there is, and says so. *)
Lemma clearPending_timers (b : bool) (s : State) :
  timerInv s ->
  timers (clearPending b s) = ∅ /\
  exists acts, trace (clearPending b s) = trace s ++ acts /\
               forallb isClearTimeout acts = true /\
               forall tid, is_Some (timers s !! tid) -> In (ClearTimeout tid) acts.
Proof.
  intros Hinv. unfold clearPending, clearTimeout.
  destruct Hinv as [He|(tid & t & Hs & Ht & _)].
  - assert (forall tid, is_Some (timers s !! tid) -> False) as Hno.
    { intros tid. rewrite He, lookup_empty. by intros [? ?]. }
    destruct (timeout (previewController s)) as [tid|].
    + destruct b; cbn; (split; [by rewrite He, delete_empty|]);
        exists [ClearTimeout tid]; repeat split; intros ? H; by destruct (Hno _ H).
    + split; [done|]. exists []. rewrite app_nil_r. repeat split.
      intros ? H; by destruct (Hno _ H).
  - rewrite Ht.
    assert (forall tid', is_Some (timers s !! tid') -> tid' = tid) as Honly.
    { intros tid'. rewrite Hs. intros [x Hx]. by apply lookup_singleton_Some in Hx as [? _]. }
    destruct b; cbn; (split; [by rewrite Hs, delete_singleton_eq|]);
      exists [ClearTimeout tid]; repeat split;
      intros ? H; apply Honly in H as ->; by left.
Qed.

Lemma timerInv_cleanup_false (s : State) :
  timerInv s -> cleanup s = false -> timers s = ∅.
Proof. intros [?|(? & ? & _ & _ & ?)] ?; [done|congruence]. Qed.

Lemma debounceCleanup_timers (s : State) :
  timerInv s ->
  timers (debounceCleanup s) = ∅ /\ cleanup (debounceCleanup s) = false /\
  exists acts, trace (debounceCleanup s) = trace s ++ acts /\
               forallb isClearTimeout acts = true /\
               forall tid, is_Some (timers s !! tid) -> In (ClearTimeout tid) acts.
Proof.
  intros Hinv. unfold debounceCleanup. destruct (cleanup s) eqn:Hc.
  - destruct (clearPending_timers true s Hinv) as (He & acts & Ht & Ha & Hin).
    cbn. repeat split; [done|]. by exists acts.
  - pose proof (timerInv_cleanup_false s Hinv Hc) as He.
    repeat split; [done..|]. exists []. rewrite app_nil_r. repeat split.
    intros tid. rewrite He, lookup_empty. by intros [? ?].
Qed.

Lemma cancelOnRealUser_inv (s : State) : timerInv s -> timerInv (cancelOnRealUser s).
Proof.
  intros Hinv. unfold cancelOnRealUser. case_match; [|done].
  unfold clearPending, clearTimeout.
  destruct Hinv as [He|(tid & t & Hs & Ht & Hc)].
  - case_match; [|by left]. left. cbn. by rewrite He, delete_empty.
  - rewrite Ht. left. cbn. by rewrite Hs, delete_singleton_eq.
Qed.

Lemma debounceBody_inv (now : Z) (s : State) :
  timers s = ∅ -> timerInv (debounceBody now s).
Proof.
  intros He. unfold debounceBody, setHash, setTimeout, clearPending, clearTimeout.
  repeat case_match; cbn; rewrite ?He, ?delete_empty;
    first [ by left | right; eexists _, _; by rewrite insert_empty ].
Qed.

Lemma debounceEffect_inv (now : Z) (s : State) :
  timerInv s -> timerInv (debounceEffect now s).
Proof.
  intros Hinv. apply debounceBody_inv.
  by destruct (debounceCleanup_timers s Hinv) as (? & _).
Qed.

Lemma commit_inv (now : Z) (s : State) : timerInv s -> timerInv (commit now s).
Proof.
  intros Hinv. unfold commit. destruct (mounted s); [|done].
  assert (forall s', timerInv s' -> timerInv (with_flags false false s')) as Hf by done.
  apply Hf.
  assert (timerInv (if messagesChanged s then cancelOnRealUser (syncMessagesRef s) else s))
    as H1 by (destruct (messagesChanged s); [by apply cancelOnRealUser_inv|done]).
  destruct (depsChanged s); [by apply debounceEffect_inv|done].
Qed.

Lemma handle_inv (now : Z) (ev : Event) (s : State) :
  timerInv s -> timerInv (handle now ev s).
Proof.
  intros Hinv. destruct ev.
  1-6, 8: unfold_handle; cbn; handle_cases.
  - unfold handle. destruct (timers s !! tid) as [t|] eqn:Hl; [|done].
    destruct (deadline t <=? now); [|done].
    assert (timers (emit (Run tid) (with_timers (delete tid (timers s)) (nextTimer s) s))
            = ∅) as He.
    { cbn. destruct Hinv as [He|(tid' & t' & Hs & _)].
      - by rewrite He, delete_empty.
      - rewrite Hs in Hl |- *. apply lookup_singleton_Some in Hl as [-> _].
        by rewrite delete_singleton_eq. }
    left. revert He. generalize (emit (Run tid)
      (with_timers (delete tid (timers s)) (nextTimer s) s)). intros s0 He.
    unfold_handle. cbn. handle_cases.
  - unfold handle. destruct (mounted s); [|done].
    left. by destruct (debounceCleanup_timers s Hinv) as (? & _).
Qed.

Lemma step_inv (now : Z) (ev : Event) (s : State) :
  timerInv s -> timerInv (step now s ev).
Proof. intros H. by apply commit_inv, handle_inv. Qed.

Lemma run_inv (evs : list (Z * Event)) (s : State) :
  timerInv s -> timerInv (run s evs).
Proof.
  revert s. induction evs as [|[now ev] evs IH]; intros s H; [done|].
  cbn. by apply IH, step_inv.
Qed.

Lemma initial_inv : timerInv initial.
Proof. by left. Qed.

End Timers.

(** ** The builder: teardown *)

Section Teardown.
Import CreateAgent Run.

Lemma commit_deps_only (now : Z) (s : State) :
  mounted s = true -> messagesChanged s = false -> depsChanged s = true ->
  commit now s = with_flags false false (debounceEffect now s).
Proof. intros Hm Hf Hd. unfold commit. by rewrite Hm, Hf, Hd. Qed.

Lemma debounceBody_teardown (now : Z) (s : State) :
  timers s = ∅ ->
  negb (currentStep s =? 3) || Js.isNull (createdAgent s)
    || negb (Js.truthyNumber (agentId s)) = true ->
  timers (debounceBody now s) = ∅ /\
  hash (previewController (debounceBody now s)) = "" /\
  extends isClearTimeout s (debounceBody now s).
Proof.
  intros He Hg. unfold debounceBody. rewrite Hg.
  destruct (clearPending_timers true s (timerInv_empty s He)) as (He' & Hext).
  repeat split; [done|]. destruct Hext as (acts & Ht & Ha & _). by exists acts.
Qed.

(** The three teardown events on a committed, mounted state. *)
Lemma teardown_step (s : State) (now : Z) (ev : Event) :
  committed s -> timerInv s -> mounted s = true -> isTeardown ev = true ->
  exists acts,
    trace (step now s ev) = trace s ++ acts /\
    forallb isClearTimeout acts = true /\
    (forall tid, is_Some (timers s !! tid) -> In (ClearTimeout tid) acts) /\
    timers (step now s ev) = ∅ /\
    sameData (handle now ev s) (step now s ev) /\
    hash (previewController (step now s ev)) =
      match ev with Unmount => hash (previewController s) | _ => "" end.
Proof.
  intros (Hr & Hmc & Hdc) Hinv Hm Hev.
  destruct (debounceCleanup_timers s Hinv) as (He & Hcf & acts & Ht & Ha & Hin).
  destruct (debounceCleanup_ref s) as (_ & Hh & _).
  assert (forall step a c,
             negb (step =? 3) || Js.isNull a || negb (Js.truthyNumber (agentId s)) = true ->
             let h := with_view step (agentId s) a c s in
             exists acts,
               trace (commit now h) = trace s ++ acts /\
               forallb isClearTimeout acts = true /\
               (forall tid, is_Some (timers s !! tid) -> In (ClearTimeout tid) acts) /\
               timers (commit now h) = ∅ /\
               sameData h (commit now h) /\
               hash (previewController (commit now h)) = "") as Hview.
  { intros n a c Hg h.
    assert (debounceCleanup h = with_view n (agentId s) a c (debounceCleanup s)) as Hdc'.
    { unfold debounceCleanup, clearPending, clearTimeout. subst h. cbn.
      repeat case_match; done. }
    rewrite (commit_deps_only now h) by done.
    destruct (debounceBody_teardown now (debounceCleanup h)) as (He2 & Hh2 & acts2 & Ht2 & Ha2).
    { by rewrite Hdc'. } { by rewrite Hdc'. }
    assert (trace (debounceCleanup h) = trace s ++ acts) as Htr
        by (by rewrite Hdc').
    exists (acts ++ acts2). unfold debounceEffect. cbn.
    rewrite Ht2, Htr, <- app_assoc, forallb_app, Ha, Ha2.
    split; [done|]. split; [done|]. split.
    { intros tid Htid. apply in_or_app. left. by apply Hin. }
    split; [done|]. split; [|done].
    pose proof (commit_data now h) as Hcd.
    by rewrite (commit_deps_only now h) in Hcd. }
  destruct ev; try done; cbn in Hev; unfold step, handle; rewrite Hm.
  - apply Hview. by rewrite Hev.
  - destruct a; [done|]. apply Hview. cbn. by rewrite orb_true_r.
  - cbn. exists acts. by repeat split.
Qed.

(** C5, as the code has it: when the page is left, another step is shown
    or the agent record is lost, the pending timer is cleared and nothing
    else is done to the outside: no request, no new timer, no callback; the
    log, the input, the token and the requests in flight stay as they
    are, and the hash of the pending timer is not recorded. The recorded hash
    is reset to the empty string when the step changes or the agent is
    lost, and kept when the page is left. *)
Theorem teardown_clears_timer (s : State) (now : Z) (ev : Event) :
  committed s -> timerInv s -> mounted s = true -> isTeardown ev = true ->
  let s' := step now s ev in
  timers s' = ∅ /\
  forallb isClearTimeout (actionsOf s s') = true /\
  (forall tid, is_Some (timers s !! tid) -> In (ClearTimeout tid) (actionsOf s s')) /\
  requests (actionsOf s s') = [] /\
  messages s' = messages s /\ input s' = input s /\ token s' = token s /\
  inflight s' = inflight s /\
  hash (previewController s') =
    match ev with Unmount => hash (previewController s) | _ => "" end.
Proof.
  intros Hc Hinv Hm Hev s'.
  destruct (teardown_step s now ev Hc Hinv Hm Hev)
    as (acts & Ht & Ha & Hin & He & Hd & Hh).
  fold s' in Ht, He, Hd, Hh. rewrite (actionsOf_app _ _ _ Ht).
  destruct Hd as (_ & _ & _ & _ & _ & Hmsg & Hinp & Htok & Hfl & _).
  rewrite Hmsg, Hinp, Htok, Hfl.
  assert (requests acts = []) as Hreq.
  { clear Ht Hin. induction acts as [|x acts IH]; [done|]. cbn in Ha.
    apply andb_true_iff in Ha as [Hx Ha]. destruct x; try done; by apply IH. }
  repeat split; try done.
  all: destruct ev; try done; cbn in Hev; unfold handle; rewrite Hm; try done.
  all: unfold debounceCleanup, clearPending, clearTimeout; repeat case_match; done.
Qed.

(** Leaving step 3 of the configuring builder clears timer 1. *)
Lemma teardown_clears_timer_witness :
  is_Some (timers configuring !! 1%nat) /\
  timers (step 1500 configuring (SetCurrentStep 2)) = ∅ /\
  requests (actionsOf configuring (step 1500 configuring (SetCurrentStep 2))) = [].
Proof.
  split; [vm_compute; eauto|].
  assert (committed configuring) as Hc by (vm_compute; done).
  assert (timerInv configuring) as Hinv.
  { apply run_inv, initial_inv. }
  destruct (teardown_clears_timer configuring 1500 (SetCurrentStep 2) Hc Hinv
              eq_refl eq_refl) as (H1 & _ & _ & H2 & _).
  by split.
Defined.

(** C5, as stated, fails: a preview has run and its hash is recorded; the
    user goes back to step 2 and the recorded hash becomes the empty
    string. *)
Lemma teardown_resets_hash_counterexample :
  let s := run configuring
             [(1800, TimerFires 1); (1850, Settles 1 (TokenOk "tok" 3600));
              (1900, Settles 2 (ChatOk (Some "Hi")))] in
  let s' := step 3000 s (SetCurrentStep 2) in
  hash (previewController s) = configHash initialConfig /\
  hash (previewController s') = "" /\
  hash (previewController s') <> hash (previewController s).
Proof.
  intros s s'.
  assert (hash (previewController s) = configHash initialConfig) as -> by
    (vm_compute; reflexivity).
  assert (hash (previewController s') = "") as -> by (vm_compute; reflexivity).
  repeat split. vm_compute. discriminate.
Qed.

End Teardown.

(** ** The builder: a preview that fails *)

Section Failure.
Import CreateAgent Run.





End Failure.

(** ** The builder: a burst of changes *)

Section Burst.
Import CreateAgent Run.








Local Arguments hasRealUser : simpl never.








End Burst.

(** * More properties of the builder and of the edit page *)

(** ** Trimming and splitting *)

Section Text.

Lemma append_nil_l (s : string) : "" +:+ s = s.
Proof. reflexivity. Qed.

Lemma append_cons (c : ascii) (s t : string) : String c s +:+ t = String c (s +:+ t).
Proof. reflexivity. Qed.

Lemma append_assoc (s t u : string) : (s +:+ t) +:+ u = s +:+ (t +:+ u).
Proof.
  induction s as [|c s IH]; [done|]. by rewrite !append_cons, IH.
Qed.

Lemma trimEnd_cons (c : ascii) (rest : string) :
  Js.trimEnd (String c rest) =
    match Js.trimEnd rest with
    | EmptyString => if Js.isSpace c then "" else String c ""
    | kept => String c kept
    end.
Proof. reflexivity. Qed.

Lemma trimEnd_idem (s : string) : Js.trimEnd (Js.trimEnd s) = Js.trimEnd s.
Proof.
  induction s as [|c s IH]; [done|]. rewrite trimEnd_cons.
  destruct (Js.trimEnd s) as [|d kept] eqn:E.
  - destruct (Js.isSpace c) eqn:Hc; [done|]. rewrite trimEnd_cons. cbn. by rewrite Hc.
  - rewrite trimEnd_cons. by rewrite IH.
Qed.

(** What [trimStart] leaves is empty or starts with a visible character. *)
Lemma trimStart_head (s : string) :
  Js.trimStart s = "" \/
  exists c rest, Js.trimStart s = String c rest /\ Js.isSpace c = false.
Proof.
  induction s as [|c s IH]; [by left|]. cbn.
  destruct (Js.isSpace c) eqn:Hc; [done|]. right. by exists c, s.
Qed.

Lemma trimEnd_head (c : ascii) (rest : string) :
  Js.isSpace c = false -> exists kept, Js.trimEnd (String c rest) = String c kept.
Proof.
  intros Hc. cbn. destruct (Js.trimEnd rest); [|by eexists].
  rewrite Hc. by eexists.
Qed.

(** Trimming what is trimmed changes nothing. *)
Lemma trim_idem (s : string) : Js.trim (Js.trim s) = Js.trim s.
Proof.
  unfold Js.trim at 2 3.
  destruct (trimStart_head s) as [->|(c & rest & -> & Hc)]; [done|].
  destruct (trimEnd_head c rest Hc) as (kept & E).
  unfold Js.trim. rewrite E. cbn [Js.trimStart]. rewrite Hc, <- E.
  apply trimEnd_idem.
Qed.

Lemma trimStart_chars (c : ascii) (s : string) :
  JsText.containsChar c s = false -> JsText.containsChar c (Js.trimStart s) = false.
Proof.
  induction s as [|d s IH]; [done|]. cbn.
  intros [Hd Hs]%orb_false_iff. destruct (Js.isSpace d); [auto|]. cbn. by rewrite Hd, Hs.
Qed.

Lemma trimEnd_chars (c : ascii) (s : string) :
  JsText.containsChar c s = false -> JsText.containsChar c (Js.trimEnd s) = false.
Proof.
  induction s as [|d s IH]; [done|]. cbn.
  intros [Hd Hs]%orb_false_iff. specialize (IH Hs).
  destruct (Js.trimEnd s).
  - destruct (Js.isSpace d); [done|]. cbn. by rewrite Hd.
  - cbn in *. by rewrite Hd, IH.
Qed.

Lemma trim_chars (c : ascii) (s : string) :
  JsText.containsChar c s = false -> JsText.containsChar c (Js.trim s) = false.
Proof. intros H. by apply trimEnd_chars, trimStart_chars. Qed.

Lemma split_not_nil (sep : ascii) (s : string) : JsText.split sep s <> [].
Proof.
  induction s as [|c s IH]; [done|]. cbn.
  destruct (Ascii.eqb c sep); [done|]. by destruct (JsText.split sep s).
Qed.

(** No piece of a split holds the separator. *)
Lemma split_pieces (sep : ascii) (s : string) :
  Forall (fun piece => JsText.containsChar sep piece = false) (JsText.split sep s).
Proof.
  induction s as [|c s IH]; cbn; [by repeat constructor|].
  destruct (Ascii.eqb c sep) eqn:Hc; [by constructor|].
  destruct (JsText.split sep s) as [|piece pieces]; [by repeat constructor; cbn; rewrite Hc|].
  inversion IH as [|? ? Hp Hrest]; subst. constructor; [|done]. cbn. by rewrite Hc, Hp.
Qed.

Lemma split_none (sep : ascii) (s : string) :
  JsText.containsChar sep s = false -> JsText.split sep s = [s].
Proof.
  induction s as [|c s IH]; [done|]. cbn.
  intros [Hc Hs]%orb_false_iff. by rewrite Hc, (IH Hs).
Qed.

Lemma split_at_sep (sep : ascii) (s rest : string) :
  JsText.containsChar sep s = false ->
  JsText.split sep (s +:+ String sep rest) = s :: JsText.split sep rest.
Proof.
  induction s as [|c s IH]; cbn.
  - intros _. rewrite append_nil_l. cbn. by rewrite Ascii.eqb_refl.
  - intros [Hc Hs]%orb_false_iff. rewrite append_cons. cbn. by rewrite Hc, (IH Hs).
Qed.

Lemma includes_In (x : string) (l : list string) :
  JsText.includes x l = true <-> In x l.
Proof.
  unfold JsText.includes. rewrite existsb_exists. split.
  - intros (y & Hy & ->%String.eqb_eq). done.
  - intros H. exists x. by rewrite String.eqb_refl.
Qed.

Lemma includesZ_In (x : Z) (l : list Z) : JsText.includesZ x l = true <-> In x l.
Proof.
  unfold JsText.includesZ. rewrite existsb_exists. split.
  - intros (y & Hy & ->%Z.eqb_eq). done.
  - intros H. exists x. by rewrite Z.eqb_refl.
Qed.

Lemma nonEmpty_true (s : string) : JsText.nonEmpty s = true <-> s <> "".
Proof. by destruct s. Qed.

End Text.

(** ** The site whitelist *)

Section Whitelist.

Lemma whitelistArray_entries (siteWhitelist : string) :
  Forall Forms.cleanEntry (Forms.whitelistArray siteWhitelist).
Proof.
  unfold Forms.whitelistArray. apply Forall_forall. intros e He.
  apply list_elem_of_In, List.filter_In in He as [He Hne].
  apply in_map_iff in He as (piece & <- & Hp).
  pose proof (split_pieces "," siteWhitelist) as Hall.
  rewrite Forall_forall in Hall. unfold Forms.cleanEntry.
  split; [by apply nonEmpty_true|]. split; [apply trim_idem|].
  apply trim_chars, Hall. by apply list_elem_of_In.
Qed.

(** X1: every entry of the whitelist the two pages send is a piece of the
    text field that is not empty, has no white space around it and holds no
    comma, whatever was typed. *)
Theorem whitelistArray_clean (siteWhitelist : string) :
  Forall Forms.cleanEntry (Forms.whitelistArray siteWhitelist).
Proof. apply whitelistArray_entries. Qed.

Lemma trim_space_prefix (e : string) : Js.trim (" " +:+ e) = Js.trim e.
Proof. reflexivity. Qed.

Lemma whitelist_pieces (prefix : string) (l : list string) :
  prefix = "" \/ prefix = " " -> l <> [] -> Forall Forms.cleanEntry l ->
  List.filter JsText.nonEmpty
    (map Js.trim (JsText.split "," (prefix +:+ Js.join ", " l))) = l.
Proof.
  intros Hp Hne Hall. revert prefix Hp.
  induction Hall as [|e l (He & Ht & Hc) Hall IH]; [done|]. intros prefix Hp.
  assert (JsText.containsChar "," (prefix +:+ e) = false) as Hpc.
  { destruct Hp as [-> | ->]; [done|]. rewrite append_cons, append_nil_l. cbn.
    by rewrite Hc. }
  assert (Js.trim (prefix +:+ e) = e) as Hpt.
  { destruct Hp as [-> | ->]; [done|]. by rewrite trim_space_prefix. }
  destruct l as [|e' l].
  - cbn [Js.join]. rewrite split_none by done. cbn. rewrite Hpt.
    by apply nonEmpty_true in He as ->.
  - assert (prefix +:+ Js.join ", " (e :: e' :: l)
            = (prefix +:+ e) +:+ String "," (" " +:+ Js.join ", " (e' :: l))) as ->.
    { cbn [Js.join]. by rewrite append_assoc. }
    rewrite split_at_sep by done. cbn [map List.filter]. rewrite Hpt.
    apply nonEmpty_true in He as ->. f_equal. apply IH; [done|by right].
Qed.

(** X2: the edit page shows a stored whitelist as text and reads it back
    when saving; for a whitelist of clean entries the two steps give the
    whitelist again. *)
Theorem whitelist_round_trip (whitelist : list string) :
  Forall Forms.cleanEntry whitelist ->
  Forms.whitelistArray (Forms.whitelistText whitelist) = whitelist.
Proof.
  intros Hall. destruct whitelist as [|e l]; [done|].
  unfold Forms.whitelistArray, Forms.whitelistText.
  by apply (whitelist_pieces "" (e :: l)); [left| |].
Qed.

Lemma whitelist_round_trip_witness :
  Forms.whitelistArray (Forms.whitelistText ["docs.example.com"; "help.example.com"])
  = ["docs.example.com"; "help.example.com"].
Proof.
  apply whitelist_round_trip. repeat constructor; discriminate.
Defined.

End Whitelist.

(** ** Selecting documents *)

(** Decides [NoDup] of a list given in full. *)
Ltac solve_NoDup :=
  repeat (apply NoDup_cons_2;
          [rewrite list_elem_of_In; cbn; intuition (discriminate || lia)|]);
  apply NoDup_nil_2.

Section Documents.

Lemma toggleDocument_In (docId x : Z) (prev : list Z) :
  In x (Forms.toggleDocument docId prev) <->
  (x <> docId /\ In x prev) \/ (x = docId /\ ~ In docId prev).
Proof.
  unfold Forms.toggleDocument.
  destruct (JsText.includesZ docId prev) eqn:E.
  - apply includesZ_In in E. rewrite List.filter_In, negb_true_iff, Z.eqb_neq.
    split; [intros [? ?]; by left|]. intros [[? ?]|[-> ?]]; done.
  - assert (~ In docId prev) as Hn.
    { intros H. apply includesZ_In in H. congruence. }
    rewrite in_app_iff. cbn. split.
    + intros [H|[<-|[]]]; [|by right]. left. split; [|done]. by intros ->.
    + intros [[? ?]|[-> _]]; [by left|]. right. by left.
Qed.

Lemma NoDup_List_filter {A : Type} (f : A -> bool) (l : list A) :
  NoDup l -> NoDup (List.filter f l).
Proof.
  induction 1 as [|x l Hx Hnd IH]; cbn; [constructor|].
  destruct (f x); [|done]. constructor; [|done].
  rewrite list_elem_of_In, List.filter_In. intros [H _]. by apply Hx, list_elem_of_In.
Qed.

(** X3: toggling a document flips whether it is selected and leaves every
    other document as it was; a selection without duplicates stays without
    duplicates. *)
Theorem toggleDocument_flips (docId : Z) (prev : list Z) :
  (In docId (Forms.toggleDocument docId prev) <-> ~ In docId prev) /\
  (forall other, other <> docId ->
     (In other (Forms.toggleDocument docId prev) <-> In other prev)) /\
  (NoDup prev -> NoDup (Forms.toggleDocument docId prev)).
Proof.
  split; [|split].
  - rewrite toggleDocument_In. split; [intros [[? ?]|[_ ?]]; done|]. by right.
  - intros other Ho. rewrite toggleDocument_In. split; [intros [[? ?]|[? ?]]; done|].
    by left.
  - intros Hnd. unfold Forms.toggleDocument.
    destruct (JsText.includesZ docId prev) eqn:E.
    + by apply NoDup_List_filter.
    + apply NoDup_app. repeat split; [done| |apply NoDup_singleton].
      intros x Hx ->%list_elem_of_singleton.
      apply list_elem_of_In, includesZ_In in Hx. congruence.
Qed.

Lemma toggleDocument_flips_witness :
  NoDup (Forms.toggleDocument 2 [1; 2; 3]) /\ ~ In 2 (Forms.toggleDocument 2 [1; 2; 3]).
Proof.
  destruct (toggleDocument_flips 2 [1; 2; 3]) as (H1 & _ & H3).
  split.
  - apply H3. solve_NoDup.
  - cbn. intros [H|[H|[]]]; discriminate.
Defined.

Lemma filter_absent (docId : Z) (l : list Z) :
  ~ In docId l -> List.filter (fun id => negb (id =? docId)) l = l.
Proof.
  induction l as [|x l IH]; [done|]. cbn. intros H.
  destruct (Z.eqb_spec x docId) as [->|_]; cbn; [destruct H; by left|].
  rewrite IH; [done|]. intros ?. apply H. by right.
Qed.

Lemma toggleDocument_twice (docId : Z) (prev : list Z) :
  NoDup prev -> Forms.toggleDocument docId (Forms.toggleDocument docId prev) ≡ₚ prev.
Proof.
  intros Hnd. unfold Forms.toggleDocument at 2.
  destruct (JsText.includesZ docId prev) eqn:E.
  - assert (~ In docId (List.filter (fun id => negb (id =? docId)) prev)) as Hn.
    { rewrite List.filter_In, negb_true_iff, Z.eqb_neq. by intros [_ ?]. }
    unfold Forms.toggleDocument.
    destruct (JsText.includesZ docId (List.filter _ prev)) eqn:E2;
      [by apply includesZ_In in E2|].
    clear E2 Hn. apply includesZ_In in E.
    induction Hnd as [|x l Hx Hnd IH]; [done|]. cbn.
    destruct (Z.eqb_spec x docId) as [->|Hne]; cbn.
    + rewrite filter_absent; [by rewrite Permutation_app_comm|].
      intros H. apply Hx. by apply list_elem_of_In.
    + f_equiv. apply IH. destruct E as [?|?]; done.
  - assert (~ In docId prev) as Hn by (intros H; apply includesZ_In in H; congruence).
    unfold Forms.toggleDocument.
    destruct (JsText.includesZ docId (prev ++ [docId])) eqn:E2.
    + rewrite List.filter_app, filter_absent by done. cbn.
      rewrite Z.eqb_refl. cbn. by rewrite app_nil_r.
    + assert (In docId (prev ++ [docId])) as H by (apply in_or_app; right; by left).
      apply includesZ_In in H. congruence.
Qed.

(** X4: clicking the same document twice in the builder gives a
    configuration with the hash of the one before, for a selection without
    duplicates: the second click takes back what the first one changed. *)
Theorem toggleDocument_twice_same_hash (docId : Z) (c : Config) :
  NoDup (selectedDocs c) ->
  configHash
    (Forms.withDocs
       (Forms.toggleDocument docId (Forms.toggleDocument docId (selectedDocs c))) c)
  = configHash c.
Proof.
  intros Hnd. apply configHash_sameUpToDocOrder. unfold sameUpToDocOrder. cbn.
  repeat split. by apply toggleDocument_twice.
Qed.

Lemma toggleDocument_twice_same_hash_witness :
  configHash
    (Forms.withDocs (Forms.toggleDocument 3 (Forms.toggleDocument 3 [3; 1]))
       Run.salesConfig)
  = configHash Run.salesConfig.
Proof.
  apply (toggleDocument_twice_same_hash 3 Run.salesConfig).
  cbn. solve_NoDup.
Defined.

End Documents.

(** ** The URL list and the starter pack *)

Section Urls.

Import Forms.

Lemma uniqueFirst_fold (l : list string) : JsText.uniqueFirst l = fold_left JsText.addUnique l [].
Proof. done. Qed.

Lemma includes_elem_of (x : string) (l : list string) :
  JsText.includes x l = true <-> x ∈ l.
Proof. by rewrite includes_In, list_elem_of_In. Qed.

Lemma includes_false (x : string) (l : list string) :
  JsText.includes x l = false <-> x ∉ l.
Proof. rewrite <- includes_elem_of. by destruct (JsText.includes x l). Qed.

Lemma addUnique_spec (seen l : list string) :
  NoDup seen ->
  NoDup (fold_left JsText.addUnique l seen) /\
  (forall x, x ∈ fold_left JsText.addUnique l seen <-> x ∈ seen \/ x ∈ l) /\
  seen `prefix_of` fold_left JsText.addUnique l seen.
Proof.
  revert seen. induction l as [|y l IH]; intros seen Hnd; cbn.
  - split; [done|]. split; [|done]. intros x. rewrite elem_of_nil. tauto.
  - unfold JsText.addUnique at 2 4 6. destruct (JsText.includes y seen) eqn:E.
    + apply includes_elem_of in E. destruct (IH seen Hnd) as (H1 & H2 & H3).
      split; [done|]. split; [|done]. intros x. rewrite H2, elem_of_cons.
      split; [tauto|]. intros [?|[->|?]]; tauto.
    + apply includes_false in E.
      assert (NoDup (seen ++ [y])) as Hnd'.
      { apply NoDup_app. split; [done|]. split; [|apply NoDup_singleton].
        intros x Hx ->%list_elem_of_singleton. done. }
      destruct (IH _ Hnd') as (H1 & H2 & H3).
      split; [done|]. split.
      * intros x. rewrite H2, elem_of_app, list_elem_of_singleton, elem_of_cons. tauto.
      * etrans; [|done]. by apply prefix_app_r.
Qed.

Lemma addUnique_fresh (seen l : list string) :
  NoDup (seen ++ l) -> fold_left JsText.addUnique l seen = seen ++ l.
Proof.
  revert seen. induction l as [|y l IH]; intros seen Hnd; cbn.
  - by rewrite app_nil_r.
  - assert (y ∉ seen) as Hy.
    { apply NoDup_app in Hnd as (_ & Hd & _). intros H. apply (Hd y H). by left. }
    unfold JsText.addUnique at 2. apply includes_false in Hy. rewrite Hy.
    rewrite IH; [by rewrite <- app_assoc|]. by rewrite <- app_assoc.
Qed.

Lemma addUnique_absorb (seen l : list string) :
  (forall x, x ∈ l -> x ∈ seen) -> fold_left JsText.addUnique l seen = seen.
Proof.
  induction l as [|y l IH]; intros H; cbn; [done|].
  unfold JsText.addUnique at 2.
  assert (JsText.includes y seen = true) as ->.
  { apply includes_elem_of, H. by left. }
  apply IH. intros x Hx. apply H. by right.
Qed.

Lemma uniqueFirst_app (l p : list string) :
  NoDup l -> JsText.uniqueFirst (l ++ p) = fold_left JsText.addUnique p l.
Proof.
  intros Hnd. rewrite uniqueFirst_fold, fold_left_app. f_equal.
  apply (addUnique_fresh [] l). done.
Qed.

(** The URLs [applyStarterPack] leaves, for a list without duplicates. *)
Lemma starter_urls (s : State) :
  NoDup (uploadedUrls s) ->
  uploadedUrls (applyStarterPack s)
  = fold_left JsText.addUnique (sp_urls (starterPack (domain (config s)))) (uploadedUrls s).
Proof.
  intros Hnd. cbn. rewrite uniqueFirst_app by done.
  destruct (addUnique_spec (uploadedUrls s) (sp_urls (starterPack (domain (config s)))) Hnd)
    as (_ & _ & [ext Hext]).
  destruct (Nat.eqb_spec
              (length (fold_left JsText.addUnique (sp_urls (starterPack (domain (config s))))
                         (uploadedUrls s)))
              (length (uploadedUrls s))) as [Hlen|Hlen]; cbn; [|done].
  rewrite Hext in Hlen |- *. rewrite length_app in Hlen.
  destruct ext; [by rewrite app_nil_r|cbn in Hlen; lia].
Qed.

Lemma handleUrlAdd_twice (s : State) : handleUrlAdd (handleUrlAdd s) = handleUrlAdd s.
Proof.
  unfold handleUrlAdd at 2 3.
  destruct (JsText.nonEmpty (Js.trim (urlInput s)) &&
            negb (JsText.includes (Js.trim (urlInput s)) (uploadedUrls s))) eqn:E.
  - done.
  - unfold handleUrlAdd. by rewrite E.
Qed.

Lemma handleUrlAdd_urls (s : State) :
  NoDup (uploadedUrls s) ->
  NoDup (uploadedUrls (handleUrlAdd s)) /\
  uploadedUrls s `prefix_of` uploadedUrls (handleUrlAdd s) /\
  (forall u, u ∈ uploadedUrls (handleUrlAdd s) ->
     u ∈ uploadedUrls s \/ (u = Js.trim (urlInput s) /\ u <> "")).
Proof.
  intros Hnd. split; [|split];
    unfold handleUrlAdd;
    destruct (JsText.nonEmpty (Js.trim (urlInput s))) eqn:E1; cbn; try done;
    try (by left);
    destruct (JsText.includes (Js.trim (urlInput s)) (uploadedUrls s)) eqn:E2; cbn;
    try done; try (by left);
    apply includes_false in E2; apply nonEmpty_true in E1.
  - apply NoDup_app. split; [done|]. split; [|apply NoDup_singleton].
    intros x Hx ->%list_elem_of_singleton. done.
  - by apply prefix_app_r.
  - intros u [?| ->%list_elem_of_singleton]%elem_of_app; [by left|by right].
Qed.

(** X5: the Add button stores the trimmed text of the URL field at the end
    of the list unless it is blank or already listed; a list without
    duplicates stays so, and a second click changes nothing. *)
Theorem handleUrlAdd_no_duplicates (s : State) :
  NoDup (uploadedUrls s) ->
  NoDup (uploadedUrls (handleUrlAdd s)) /\
  uploadedUrls s `prefix_of` uploadedUrls (handleUrlAdd s) /\
  (forall u, u ∈ uploadedUrls (handleUrlAdd s) ->
     u ∈ uploadedUrls s \/ (u = Js.trim (urlInput s) /\ u <> "")) /\
  handleUrlAdd (handleUrlAdd s) = handleUrlAdd s.
Proof.
  intros Hnd. destruct (handleUrlAdd_urls s Hnd) as (H1 & H2 & H3).
  repeat (split; [done|]). apply handleUrlAdd_twice.
Qed.

Lemma handleUrlAdd_no_duplicates_witness :
  uploadedUrls
    (handleUrlAdd
       (handleUrlAdd (with_urls "  https://a.example  " ["https://b.example"]
                        (initial Run.salesConfig))))
  = ["https://b.example"; "https://a.example"].
Proof.
  destruct (handleUrlAdd_no_duplicates
              (with_urls "  https://a.example  " ["https://b.example"]
                 (initial Run.salesConfig))) as (_ & _ & _ & ->).
  - cbn. solve_NoDup.
  - reflexivity.
Defined.

End Urls.

Section UrlList.

Import Forms.

Lemma filterIndex_delete {A : Type} (index k : Z) (l : list A) :
  JsText.filterIndex (fun i => negb (i =? index)) k l
  = if k <=? index then delete (Z.to_nat (index - k)) l else l.
Proof.
  revert k. induction l as [|x l IH]; intros k; cbn.
  - by destruct (k <=? index).
  - rewrite IH. destruct (Z.eqb_spec k index) as [->|Hne]; cbn.
    + rewrite Z.leb_refl, Z.sub_diag. cbn.
      by destruct (Z.leb_spec (index + 1) index); [lia|].
    + destruct (Z.leb_spec k index), (Z.leb_spec (k + 1) index); try lia; [|done].
      replace (Z.to_nat (index - k)) with (S (Z.to_nat (index - (k + 1)))) by lia.
      done.
Qed.

Lemma removeAt_sublist {A : Type} (index : Z) (l : list A) :
  removeAt index l `sublist_of` l.
Proof.
  unfold removeAt. rewrite filterIndex_delete.
  destruct (0 <=? index); [apply sublist_delete|done].
Qed.

(** X6: the remove button of a row deletes the entry at that position and
    nothing else; an index outside the list leaves the list as it is. *)
Theorem removeAt_spec {A : Type} (index : Z) (l : list A) :
  (0 <= index ->
   removeAt index l = take (Z.to_nat index) l ++ drop (S (Z.to_nat index)) l) /\
  (index < 0 \/ Z.of_nat (length l) <= index -> removeAt index l = l) /\
  removeAt index l `sublist_of` l.
Proof.
  split; [|split; [|apply removeAt_sublist]];
    unfold removeAt; rewrite filterIndex_delete, Z.sub_0_r.
  - intros H. destruct (Z.leb_spec 0 index); [|lia]. apply delete_take_drop.
  - intros [H|H]; destruct (Z.leb_spec 0 index); try lia; try done.
    rewrite delete_take_drop, take_ge, drop_ge by lia. apply app_nil_r.
Qed.

Lemma removeAt_spec_witness :
  removeAt 1 ["a"; "b"; "c"] = ["a"; "c"] /\ removeAt 3 ["a"; "b"; "c"] = ["a"; "b"; "c"].
Proof.
  destruct (removeAt_spec 1 ["a"; "b"; "c"]) as (H1 & _ & _).
  destruct (removeAt_spec 3 ["a"; "b"; "c"]) as (_ & H2 & _).
  split; [rewrite H1 by lia; reflexivity|apply H2; right; cbn; lia].
Defined.

Lemma applyStarterPack_urls_spec (s : State) :
  NoDup (uploadedUrls s) ->
  NoDup (uploadedUrls (applyStarterPack s)) /\
  uploadedUrls s `prefix_of` uploadedUrls (applyStarterPack s) /\
  (forall u, u ∈ uploadedUrls (applyStarterPack s) <->
     u ∈ uploadedUrls s \/ u ∈ sp_urls (starterPack (domain (config s)))).
Proof.
  intros Hnd. rewrite starter_urls by done.
  destruct (addUnique_spec (uploadedUrls s) (sp_urls (starterPack (domain (config s)))) Hnd)
    as (H1 & H2 & H3).
  done.
Qed.

(** X7: the starter pack adds its URLs that are not listed yet behind the
    URLs of the list, which keeps its entries and their order and stays
    without duplicates. *)
Theorem applyStarterPack_urls (s : State) :
  NoDup (uploadedUrls s) ->
  NoDup (uploadedUrls (applyStarterPack s)) /\
  uploadedUrls s `prefix_of` uploadedUrls (applyStarterPack s) /\
  (forall u, u ∈ uploadedUrls (applyStarterPack s) <->
     u ∈ uploadedUrls s \/ u ∈ sp_urls (starterPack (domain (config s)))).
Proof.
  apply applyStarterPack_urls_spec.
Qed.

Lemma applyStarterPack_urls_witness :
  "https://example.com/docs/pricing"
  ∈ uploadedUrls
      (applyStarterPack (with_urls "" ["https://example.com/docs/pricing"; "https://own.example"]
                           (initial Run.salesConfig))).
Proof.
  destruct (applyStarterPack_urls
              (with_urls "" ["https://example.com/docs/pricing"; "https://own.example"]
                 (initial Run.salesConfig))) as (_ & _ & H).
  - cbn. solve_NoDup.
  - apply H. left. cbn. by left.
Defined.

Lemma starterPack_clean (d : DomainKey) : cleanUrls (sp_urls (starterPack d)).
Proof.
  split.
  - destruct d; cbn; solve_NoDup.
  - destruct d; cbn; repeat constructor; done.
Qed.

Lemma cleanUrls_nil : cleanUrls [].
Proof. split; constructor. Qed.

Lemma step_clean (s : State) (ev : Event) :
  cleanUrls (uploadedUrls s) -> cleanUrls (uploadedUrls (step s ev)).
Proof.
  intros [Hnd Hall]. destruct ev as [value| |index| |d|]; cbn; try done.
  - split; [by apply handleUrlAdd_urls|].
    apply Forall_forall. intros u Hu.
    apply handleUrlAdd_urls in Hu as [Hu|[-> Hu]]; [|split|done].
    + by apply (proj1 (Forall_forall _ _) Hall).
    + done.
    + apply trim_idem.
  - split.
    + eapply sublist_NoDup; [done|apply removeAt_sublist].
    + apply Forall_forall. intros u Hu.
      apply (proj1 (Forall_forall _ _) Hall).
      eapply elem_of_sublist; [done|apply removeAt_sublist].
  - destruct (starterPackApplied s); [done|].
    destruct (applyStarterPack_urls_spec s Hnd) as (H1 & _ & H3).
    split; [done|]. apply Forall_forall. intros u [Hu|Hu]%H3.
    + by apply (proj1 (Forall_forall _ _) Hall).
    + by apply (proj1 (Forall_forall _ _) (proj2 (starterPack_clean (domain (config s))))).
  - unfold setDomain. by destruct (DomainKey_eqb _ _).
  - apply cleanUrls_nil.
Qed.

(** X8: whatever the user does on the knowledge and guidance forms, the URL
    list never holds a URL twice, an empty URL or one with blanks around
    it. *)
Theorem urls_stay_clean (s : State) (evs : list Event) :
  cleanUrls (uploadedUrls s) -> cleanUrls (uploadedUrls (run s evs)).
Proof.
  revert s. induction evs as [|ev evs IH]; intros s H; [done|].
  cbn. apply IH. by apply step_clean.
Qed.

Lemma urls_stay_clean_witness :
  cleanUrls
    (uploadedUrls
       (run (initial Run.salesConfig)
          [SetUrlInput " https://a.example "; UrlAdd; StarterPackClick; RemoveUrl 0])).
Proof.
  apply (urls_stay_clean (initial Run.salesConfig)). apply cleanUrls_nil.
Defined.

End UrlList.

(** ** The domain expertise payload *)

Section Payload.

Import DomainExpertise.

Lemma whenNonEmpty_Some (text t : string) :
  whenNonEmpty text = Some t -> t = text /\ t <> "".
Proof. unfold whenNonEmpty. destruct text; [done|]. by intros [= <-]. Qed.

(** X9: the payload the builder saves names a preset persona or carries a
    custom one, never both and, when the expertise is on, exactly one; the
    preset is never "custom"; the whitelist entries are clean; the context
    and the persona overrides are sent trimmed and only when not blank;
    with the expertise off nothing of the form is sent. *)
Theorem builder_payload_well_formed (c : Config) (customPersonaPrompt : string) :
  let payload := buildDomainExpertisePayload c customPersonaPrompt in
  enabled payload = domainEnabled c /\
  (persona_key payload = None \/ custom_persona payload = None) /\
  (enabled payload = true ->
   (persona_key payload = None <-> custom_persona payload <> None)) /\
  persona_key payload <> Some "custom" /\
  Forall Forms.cleanEntry (site_whitelist payload) /\
  (forall t, additional_context payload = Some t \/ persona_overrides payload = Some t ->
     t <> "" /\ Js.trim t = t) /\
  (enabled payload = false ->
   knowledge_document_ids payload = [] /\ web_search_enabled payload = false /\
   site_whitelist payload = [] /\ persona_key payload = None /\
   custom_persona payload = None /\ additional_context payload = None /\
   persona_overrides payload = None).
Proof.
  assert (forall text t,
            whenNonEmpty (Js.trim text) = Some t -> t <> "" /\ Js.trim t = t) as Htrim.
  { intros text t [-> H]%whenNonEmpty_Some. split; [done|apply trim_idem]. }
  unfold buildDomainExpertisePayload.
  destruct (domainEnabled c); cbn; [|split_and!; try done; [by left|by intros t [?|?]]].
  destruct (String.eqb_spec (selectedPersona c) "custom") as [E|E]; cbn;
    split_and!; try done.
  - by left.
  - apply whitelistArray_entries.
  - intros t [H|H]; by apply Htrim in H.
  - by right.
  - by intros [= ?].
  - apply whitelistArray_entries.
  - intros t [H|H]; by apply Htrim in H.
Qed.

Lemma nonEmpty_false (s : string) : JsText.nonEmpty s = false <-> s = "".
Proof. by destruct s. Qed.

(** X10: the edit page saves nothing and alerts exactly when the expertise
    is on, the persona is the custom one and its prompt is blank. What it
    saves otherwise names a preset persona or carries a custom persona,
    never both; a custom persona that is sent has a prompt that is not
    blank; the whitelist entries are clean. *)
Theorem handleDomainSave_well_formed (c : Config) (customPersonaPrompt : string) :
  ((exists message, handleDomainSave c customPersonaPrompt = Alert message) <->
   domainEnabled c = true /\ selectedPersona c = "custom" /\
   Js.trim customPersonaPrompt = "") /\
  (forall payload, handleDomainSave c customPersonaPrompt = Mutate payload ->
     enabled payload = domainEnabled c /\
     (persona_key payload = None \/ custom_persona payload = None) /\
     (enabled payload = true ->
      (persona_key payload = None <-> custom_persona payload <> None)) /\
     persona_key payload <> Some "custom" /\
     (forall persona, custom_persona payload = Some persona ->
        Js.trim (system_prompt persona) <> "") /\
     Forall Forms.cleanEntry (site_whitelist payload)).
Proof.
  unfold handleDomainSave.
  destruct (domainEnabled c); cbn;
    [destruct (String.eqb_spec (selectedPersona c) "custom") as [E|E]; cbn;
     [destruct (JsText.nonEmpty (Js.trim customPersonaPrompt)) eqn:Ep; cbn;
      [apply nonEmpty_true in Ep|apply nonEmpty_false in Ep]|]|];
    (split;
     [split; [try (by intros [? ?]); try (intros _; split_and!; done)
             |try (by intros (? & ? & ?)); try (intros _; by eexists)]
     |try done; intros payload [= <-]; cbn; split_and!; try done;
      try (by left); try (by right); try (by intros [= ?]);
      try (by intros ? [= <-]); try apply whitelistArray_entries; try constructor]).
Qed.

Lemma handleDomainSave_well_formed_witness :
  exists payload,
    handleDomainSave Run.salesConfig "" = Mutate payload /\
    persona_key payload <> Some "custom".
Proof.
  eexists. split; [reflexivity|].
  destruct (handleDomainSave_well_formed Run.salesConfig "") as [_ H].
  by apply (H _ eq_refl).
Defined.

(** X11: the edit page and the builder save the same payload for the same
    form exactly when the expertise is off, or a preset persona is selected
    and the context is neither empty nor has blanks around it: the edit
    page sends the context as typed and puts the overrides of a custom
    persona in its tactics. *)
Theorem pages_save_same_payload (c : Config) (customPersonaPrompt : string) :
  handleDomainSave c customPersonaPrompt
  = Mutate (buildDomainExpertisePayload c customPersonaPrompt)
  <-> domainEnabled c = false \/
      (selectedPersona c <> "custom" /\ additionalContext c <> "" /\
       Js.trim (additionalContext c) = additionalContext c).
Proof.
  unfold handleDomainSave, buildDomainExpertisePayload.
  destruct (domainEnabled c); cbn; [|split; [by left|done]].
  destruct (String.eqb_spec (selectedPersona c) "custom") as [E|E]; cbn.
  - split; [|by intros [?|[? _]]].
    destruct (JsText.nonEmpty (Js.trim customPersonaPrompt)); [|done].
    by intros [= ?].
  - unfold whenNonEmpty at 2. split.
    + intros [= H]. right. split; [done|].
      destruct (JsText.nonEmpty (Js.trim (additionalContext c))) eqn:Ec; [|done].
      injection H as H. apply nonEmpty_true in Ec. rewrite <- H. split; [|done].
      by rewrite H.
    + intros [?|(_ & Hne & Ht)]; [done|]. rewrite Ht.
      apply nonEmpty_true in Hne. by rewrite Hne.
Qed.

Lemma toLowerCase_nonEmpty (r : string) : JsText.toLowerCase r <> "" -> r <> "".
Proof. by destruct r. Qed.

(** X12: the persona the edit page selects for a stored agent is always one
    of the options of its menu, and a stored type that is an option up to
    the case of its ASCII letters selects that option; the default persona
    of every domain of the builder is one of these options too. *)
Theorem normalizedPersona_is_option :
  (forall raw, In (normalizedPersona raw) personaOptions) /\
  (forall raw, In (JsText.toLowerCase raw) personaOptions ->
     normalizedPersona (Some raw) = JsText.toLowerCase raw) /\
  (forall d, In (Forms.defaultPersona d) personaOptions).
Proof.
  split; [|split].
  - intros raw. unfold normalizedPersona.
    destruct (JsText.includes _ personaOptions) eqn:E; [by apply includes_In|].
    cbn. tauto.
  - intros raw H. unfold normalizedPersona.
    assert (Js.orElse (Some raw) "custom" = raw) as ->.
    { destruct raw; [|done]. cbn in H. intuition discriminate. }
    by apply includes_In in H as ->.
  - intros d. destruct d; cbn; tauto.
Qed.

Lemma normalizedPersona_is_option_witness :
  normalizedPersona (Some "Sales_Rep") = "sales_rep".
Proof.
  destruct normalizedPersona_is_option as (_ & H & _).
  apply (H "Sales_Rep"). cbn. tauto.
Defined.

End Payload.


(** ** The upload queue *)

Section UploadQueue.

Import Upload.

Lemma setStatus_id (i : string) (st : Status) (item : UploadItemStatus) :
  id (setStatus i st item) = id item /\
  label (setStatus i st item) = label item /\
  type (setStatus i st item) = type item.
Proof. unfold setStatus. by destruct (String.eqb _ _). Qed.

Lemma setStatus_other (i : string) (st : Status) (item : UploadItemStatus) :
  id item <> i -> setStatus i st item = item.
Proof. unfold setStatus. by intros ->%String.eqb_neq. Qed.

Lemma setStatus_same (i : string) (st : Status) (item : UploadItemStatus) :
  id item = i ->
  setStatus i st item
  = {| id := id item; label := label item; type := type item; status := st |}.
Proof. unfold setStatus. by intros ->%String.eqb_eq. Qed.

(** One turn of the loop, seen from one entry of the list. *)
Lemma turn_entry (i : string) (st : Status) (item : UploadItemStatus) :
  setStatus i st (setStatus i uploading item)
  = if String.eqb (id item) i
    then {| id := id item; label := label item; type := type item; status := st |}
    else item.
Proof.
  unfold setStatus. destruct (String.eqb (id item) i) eqn:E; cbn; by rewrite E.
Qed.

Lemma uploadAll_calls (aid : Z) (ok : nat -> bool) (n : nat) (queue : list QueueItem)
    (statuses : list UploadItemStatus) (calls : list (Z * QueueItem)) :
  (uploadAll aid ok n queue statuses calls).2 = calls ++ map (pair aid) queue.
Proof.
  revert n statuses calls. induction queue as [|q queue IH]; intros n statuses calls; cbn.
  - by rewrite app_nil_r.
  - by rewrite IH, <- app_assoc.
Qed.

(** What the loop leaves at position [k]: the entry it found there, with
    the status of the last item of the queue that has its id. *)
Lemma uploadAll_lookup (aid : Z) (ok : nat -> bool) (n : nat) (queue : list QueueItem)
    (statuses : list UploadItemStatus) (calls : list (Z * QueueItem))
    (k : nat) (item : UploadItemStatus) :
  statuses !! k = Some item ->
  exists st,
    (uploadAll aid ok n queue statuses calls).1 !! k
    = Some {| id := id item; label := label item; type := type item; status := st |} /\
    (id item ∉ map itemId queue -> st = status item) /\
    (id item ∈ map itemId queue -> st = success \/ st = error) /\
    (NoDup (map itemId queue) ->
     forall j q, queue !! j = Some q -> itemId q = id item ->
       st = outcome (ok (n + j)%nat)).
Proof.
  revert n statuses calls item.
  induction queue as [|q queue IH]; intros n statuses calls item Hk; cbn.
  - exists (status item). split; [by destruct item|]. split; [done|].
    split; [by intros ?%elem_of_nil|]. by intros _ j q' ?.
  - set (item' := setStatus (itemId q) (outcome (ok n)) (setStatus (itemId q) uploading item)).
    assert (updateUploadStatus (itemId q) (outcome (ok n))
              (updateUploadStatus (itemId q) uploading statuses) !! k = Some item') as Hk'.
    { unfold updateUploadStatus. by rewrite !list_lookup_fmap, Hk. }
    destruct (IH (S n) _ (calls ++ [(aid, q)]) item' Hk') as (st & H1 & H2 & H3 & H4).
    assert (id item' = id item /\ label item' = label item /\ type item' = type item)
      as (Ei & El & Et).
    { unfold item'. destruct (setStatus_id (itemId q) (outcome (ok n))
                                (setStatus (itemId q) uploading item)) as (-> & -> & ->).
      apply setStatus_id. }
    rewrite Ei, El, Et in H1. rewrite Ei in H2, H3, H4.
    exists st. split; [done|].
    assert (id item <> itemId q -> item' = item) as Hother.
    { intros Hne. unfold item'. rewrite turn_entry.
      by apply String.eqb_neq in Hne as ->. }
    assert (id item = itemId q -> status item' = outcome (ok n)) as Hsame.
    { intros He. unfold item'. rewrite turn_entry.
      by apply String.eqb_eq in He as ->. }
    split; [|split].
    + intros Hn. rewrite not_elem_of_cons in Hn. destruct Hn as [Hne Hn].
      rewrite (H2 Hn). by rewrite Hother.
    + intros [He|Hin]%elem_of_cons; [|by apply H3].
      destruct (decide (id item ∈ map itemId queue)) as [Hin|Hn]; [by apply H3|].
      rewrite (H2 Hn), (Hsame He). unfold outcome. destruct (ok n); [by left|by right].
    + intros [Hq Hnd]%NoDup_cons j q' Hj He. destruct j as [|j]; cbn in Hj.
      * injection Hj as <-. rewrite <- He in H2. rewrite (H2 Hq), Hsame by done.
        by rewrite Nat.add_0_r.
      * rewrite (H4 Hnd j q' Hj He). by rewrite Nat.add_succ_r.
Qed.

Lemma buildQueue_labels (files : list File) (urls : list string) (random : nat -> string) :
  map itemLabel (buildQueue files urls random) = map file_name files ++ urls /\
  length (buildQueue files urls random) = (length files + length urls)%nat.
Proof.
  unfold buildQueue. split.
  - rewrite map_app, !fmap_imap. f_equal.
    + by rewrite <- (imap_const file_name).
    + apply list_eq. intros i. rewrite list_lookup_imap. by destruct (urls !! i).
  - by rewrite length_app, !length_imap.
Qed.

Lemma uploadAll_length (aid : Z) (ok : nat -> bool) (n : nat) (queue : list QueueItem)
    (statuses : list UploadItemStatus) (calls : list (Z * QueueItem)) :
  length (uploadAll aid ok n queue statuses calls).1 = length statuses.
Proof.
  revert n statuses calls. induction queue as [|q queue IH]; intros n statuses calls; cbn.
  - done.
  - rewrite IH. unfold updateUploadStatus. by rewrite !length_map.
Qed.

(** The statuses after the loop, entry by entry. *)
Lemma uploadAll_entries (aid : Z) (ok : nat -> bool) (queue : list QueueItem)
    (calls : list (Z * QueueItem)) (k : nat) (q : QueueItem) :
  queue !! k = Some q ->
  exists st,
    (uploadAll aid ok 0 queue (map queuedEntry queue) calls).1 !! k
    = Some {| id := itemId q; label := itemLabel q; type := itemType q; status := st |} /\
    (st = success \/ st = error) /\
    (NoDup (map itemId queue) -> st = outcome (ok k)).
Proof.
  intros Hk.
  assert (map queuedEntry queue !! k = Some (queuedEntry q)) as Hk'.
  { by rewrite list_lookup_fmap, Hk. }
  destruct (uploadAll_lookup aid ok 0 queue _ calls k _ Hk') as (st & H1 & _ & H3 & H4).
  exists st. split; [done|]. split.
  - apply H3. cbn. apply list_elem_of_fmap. exists q. split; [done|].
    by eapply list_elem_of_lookup_2.
  - intros Hnd. by apply (H4 Hnd k q).
Qed.

Lemma count_finished (l : list UploadItemStatus) :
  Forall finished l ->
  count uploading l = 0 /\ count pending l = 0 /\
  count success l + count error l = Z.of_nat (length l).
Proof.
  unfold count. induction 1 as [|item l [H|H] _ (IH1 & IH2 & IH3)]; cbn; [done| |];
    rewrite H; cbn; split_and!; try done; lia.
Qed.

(** X13: the number the builder shows as queued is the number of entries
    that are still pending, so it is never negative, and the four numbers
    of the progress panel add up to the length of the list. *)
Theorem queued_is_pending_count (uploadStatuses : list UploadItemStatus) :
  queuedShown uploadStatuses = count pending uploadStatuses /\
  0 <= queuedShown uploadStatuses /\
  total (uploadProgress uploadStatuses) = Z.of_nat (length uploadStatuses).
Proof.
  assert (forall l : list UploadItemStatus,
            Z.of_nat (length l) - count success l - count error l - count uploading l
            = count pending l) as H.
  { unfold count. induction l as [|item l IH]; [done|]. cbn [List.filter length].
    destruct (status item); cbn [Status_eqb length]; lia. }
  unfold queuedShown, uploadProgress.
  destruct uploadStatuses as [|item l]; [done|]. cbn [total completed failed inFlight].
  rewrite H. split; [done|]. split; [unfold count; lia|done].
Qed.

Lemma uploadAll_final (aid : Z) (ok : nat -> bool) (queue : list QueueItem)
    (calls : list (Z * QueueItem)) :
  map label (uploadAll aid ok 0 queue (map queuedEntry queue) calls).1
  = map itemLabel queue /\
  Forall finished (uploadAll aid ok 0 queue (map queuedEntry queue) calls).1.
Proof.
  split.
  - apply list_eq. intros k. rewrite !list_lookup_fmap.
    destruct (queue !! k) as [q|] eqn:Hk.
    + destruct (uploadAll_entries aid ok queue calls k q Hk) as (st & -> & _). done.
    + apply lookup_ge_None in Hk. rewrite (proj2 (lookup_ge_None _ _)); [done|].
      by rewrite uploadAll_length, length_map.
  - apply Forall_lookup. intros k item Hitem.
    destruct (queue !! k) as [q|] eqn:Hk.
    + destruct (uploadAll_entries aid ok queue calls k q Hk) as (st & H & Hst & _).
      rewrite H in Hitem. injection Hitem as <-. done.
    + apply lookup_ge_None in Hk. apply lookup_lt_Some in Hitem.
      rewrite uploadAll_length, length_map in Hitem. lia.
Qed.

Lemma handleUploadDocuments_eq (random : nat -> string) (ok : nat -> bool)
    (s : State) (aid : Z) :
  agentId s = Some aid -> aid <> 0 ->
  handleUploadDocuments random ok s
  = let queue := buildQueue (uploadedFiles s) (uploadedUrls s) random in
    let r := uploadAll aid ok 0 queue (map queuedEntry queue) (uploads s) in
    {| agentId := agentId s; uploadedFiles := []; uploadedUrls := [];
       uploadStatuses := r.1; currentStep := 3; uploads := r.2 |}.
Proof.
  intros Ha Hne. unfold handleUploadDocuments. rewrite Ha.
  apply Z.eqb_neq in Hne as ->. cbv zeta.
  destruct (buildQueue_labels (uploadedFiles s) (uploadedUrls s) random) as [_ Hlen].
  destruct (buildQueue (uploadedFiles s) (uploadedUrls s) random) as [|q queue] eqn:E.
  - cbn in *. destruct (uploadedFiles s), (uploadedUrls s); cbn in Hlen; try lia. done.
  - by destruct (uploadAll aid ok 0 (q :: queue) (map queuedEntry (q :: queue)) (uploads s)).
Qed.

(** X14: with an agent, [handleUploadDocuments] uploads every file and
    every URL of the two lists once, the files first and each list in its
    order, and then leaves both lists empty and the builder on step 3.
    The status list has one entry for each of them, again in this order,
    and every entry ends as success or error: none is left pending or
    uploading, so the progress panel shows nothing queued or in flight. *)
Theorem handleUploadDocuments_finishes (random : nat -> string) (ok : nat -> bool)
    (s : State) (aid : Z) :
  agentId s = Some aid -> aid <> 0 ->
  let s' := handleUploadDocuments random ok s in
  let queue := buildQueue (uploadedFiles s) (uploadedUrls s) random in
  uploads s' = uploads s ++ map (pair aid) queue /\
  map itemLabel queue = map file_name (uploadedFiles s) ++ uploadedUrls s /\
  map label (uploadStatuses s') = map itemLabel queue /\
  Forall finished (uploadStatuses s') /\
  inFlight (uploadProgress (uploadStatuses s')) = 0 /\
  queuedShown (uploadStatuses s') = 0 /\
  uploadedFiles s' = [] /\ uploadedUrls s' = [] /\ currentStep s' = 3.
Proof.
  intros Ha Hne s' queue. unfold s'. rewrite (handleUploadDocuments_eq _ _ _ aid) by done.
  cbv zeta. cbn [uploads uploadStatuses uploadedFiles uploadedUrls currentStep].
  fold queue.
  destruct (uploadAll_final aid ok queue (uploads s)) as [Hl Hf].
  destruct (count_finished _ Hf) as (Hu & Hp & Hsum).
  split; [apply uploadAll_calls|]. split; [apply buildQueue_labels|].
  split; [done|]. split; [done|]. split_and!; try done.
  - unfold uploadProgress. by destruct (uploadAll _ _ _ _ _ _).1.
  - unfold queuedShown, uploadProgress.
    destruct (uploadAll _ _ _ _ _ _).1; [done|]. cbn [completed failed inFlight]. lia.
Qed.

Lemma handleUploadDocuments_finishes_witness :
  Forall finished
    (uploadStatuses
       (handleUploadDocuments (fun _ => "r4nd0m") (fun n => Nat.eqb n 0)
          twoItems)).
Proof.
  assert (7 <> 0) as Hne by lia.
  by destruct (handleUploadDocuments_finishes (fun _ => "r4nd0m") (fun n => Nat.eqb n 0)
                 twoItems 7
                 eq_refl Hne) as (_ & _ & _ & H & _).
Defined.

(** X15: when the ids of the queue differ from each other, every entry of
    the status list ends with the outcome of its own upload: success when
    the upload succeeded and error when it failed. *)
Theorem handleUploadDocuments_outcomes (random : nat -> string) (ok : nat -> bool)
    (s : State) (aid : Z) (k : nat) (q : QueueItem) :
  agentId s = Some aid -> aid <> 0 ->
  NoDup (map itemId (buildQueue (uploadedFiles s) (uploadedUrls s) random)) ->
  buildQueue (uploadedFiles s) (uploadedUrls s) random !! k = Some q ->
  uploadStatuses (handleUploadDocuments random ok s) !! k
  = Some {| id := itemId q; label := itemLabel q; type := itemType q;
            status := outcome (ok k) |}.
Proof.
  intros Ha Hne Hnd Hk. rewrite (handleUploadDocuments_eq _ _ _ aid) by done.
  cbv zeta. cbn [uploadStatuses].
  destruct (uploadAll_entries aid ok _ (uploads s) k q Hk) as (st & H & _ & Hst).
  by rewrite H, (Hst Hnd).
Qed.

Lemma handleUploadDocuments_outcomes_witness :
  status <$>
    (uploadStatuses
       (handleUploadDocuments (fun _ => "r4nd0m") (fun n => Nat.eqb n 0)
          twoItems) !! 1%nat)
  = Some error.
Proof.
  assert (7 <> 0) as Hne by lia.
  erewrite (handleUploadDocuments_outcomes (fun _ => "r4nd0m") (fun n => Nat.eqb n 0)
              twoItems 7 1 _ eq_refl Hne).
  - reflexivity.
  - cbn. solve_NoDup.
  - reflexivity.
Defined.

End UploadQueue.
